(** * TrichoScout: feed polling, deduplication and match filtering

    A shallow embedding of [TrichoScout.py].  Python [str] values are
    modelled as Rocq strings whose characters are the code points below
    256 (Latin-1); timestamps and durations (Python floats) are modelled
    as rationals; the seen-set (a Python [set]) is a [gset string]; the
    network is an explicit world that is threaded through every request. *)

From Stdlib Require Import ZArith QArith String Ascii Lia.
From stdpp Require Import base gmap sets list strings.

Open Scope string_scope.

(** ** Python string primitives *)

Module PyStr.

Definition code (c : ascii) : nat := nat_of_ascii c.

Definition between (lo hi : nat) (c : ascii) : bool :=
  (lo <=? code c)%nat && (code c <=? hi)%nat.

(** [str.isspace] on one character. *)
Definition is_space (c : ascii) : bool :=
  between 9 13 c || between 28 32 c || (code c =? 133)%nat || (code c =? 160)%nat.

(** The regex class [[a-z0-9]]. *)
Definition is_id_char (c : ascii) : bool :=
  between 97 122 c || between 48 57 c.

(** The regex class [\w] of a [str] pattern: alphanumeric or underscore. *)
Definition is_word_char (c : ascii) : bool :=
  between 48 57 c || between 65 90 c || between 97 122 c || (code c =? 95)%nat
  || (code c =? 170)%nat || between 178 179 c || (code c =? 181)%nat
  || between 185 186 c || between 188 190 c
  || between 192 214 c || between 216 246 c || between 248 255 c.

(** [str.lower] on one character. *)
Definition lower_char (c : ascii) : ascii :=
  if between 65 90 c || (between 192 222 c && negb (code c =? 215)%nat)
  then ascii_of_nat (code c + 32) else c.

Fixpoint lower (s : string) : string :=
  match s with
  | "" => ""
  | String c s' => String (lower_char c) (lower s')
  end.

Definition first_char (s : string) : option ascii :=
  match s with "" => None | String c _ => Some c end.

Fixpoint last_char (s : string) : option ascii :=
  match s with
  | "" => None
  | String c "" => Some c
  | String _ s' => last_char s'
  end.

(** [s.lstrip(chars)] for a set of characters given as a predicate. *)
Fixpoint lstrip_by (f : ascii -> bool) (s : string) : string :=
  match s with
  | "" => ""
  | String c s' => if f c then lstrip_by f s' else s
  end.

Definition rstrip_by (f : ascii -> bool) (s : string) : string :=
  String.rev (lstrip_by f (String.rev s)).

(** [s.strip()] *)
Definition strip (s : string) : string := rstrip_by is_space (lstrip_by is_space s).

(** [s[n:]] for [0 <= n]. *)
Fixpoint drop_chars (n : nat) (s : string) : string :=
  match n, s with
  | S n', String _ s' => drop_chars n' s'
  | _, _ => s
  end.

(** [s[-n:]] for [0 < n]: the last [n] characters, all of [s] when it is
    shorter. *)
Definition last_chars (n : nat) (s : string) : string :=
  drop_chars (String.length s - n) s.

(** When [s] starts with [p], what follows [p]. *)
Fixpoint strip_prefix (p s : string) : option string :=
  match p, s with
  | "", _ => Some s
  | String a p', String b s' => if Ascii.eqb a b then strip_prefix p' s' else None
  | String _ _, "" => None
  end.

(** [needle in hay] *)
Fixpoint contains (needle hay : string) : bool :=
  match strip_prefix needle hay with
  | Some _ => true
  | None => match hay with
            | "" => false
            | String _ hay' => contains needle hay'
            end
  end.

(** [s.find(marker)]: index of the first occurrence, [None] for [-1]. *)
Fixpoint find (marker s : string) : option nat :=
  match strip_prefix marker s with
  | Some _ => Some 0
  | None => match s with
            | "" => None
            | String _ s' => S <$> find marker s'
            end
  end.

(** [s.replace(old, new)] for a one-character [old]. *)
Fixpoint replace_char (old : ascii) (new s : string) : string :=
  match s with
  | "" => ""
  | String c s' =>
      if Ascii.eqb c old then new +:+ replace_char old new s'
      else String c (replace_char old new s')
  end.

(** Truthiness of a string, and Python's [a or b] on strings. *)
Definition or_else (a b : string) : string :=
  match a with "" => b | _ => a end.

Definition all_chars (f : ascii -> bool) (s : string) : Prop :=
  forall c, In c (list_ascii_of_string s) -> f c = true.

End PyStr.

(** ** The three regular expressions of the program *)

Module Re.
Import PyStr.

(** Longest prefix of [[a-z0-9]] characters, and the rest. *)
Fixpoint span_id (s : string) : string * string :=
  match s with
  | "" => ("", "")
  | String c s' =>
      if is_id_char c
      then let '(g, r) := span_id s' in (String c g, r)
      else ("", s)
  end.

(** [re.match(r"t3_([a-z0-9]+)", s)]: group 1 of a match at position 0.
    The group is greedy and nothing follows it, so it is the longest run. *)
Definition match_t3_here (s : string) : option string :=
  match strip_prefix "t3_" s with
  | Some r => match fst (span_id r) with "" => None | g => Some g end
  | None => None
  end.

(** [re.match(r"/comments/([a-z0-9]+)/", s)]: a shorter run than the
    longest one is followed by an id character, never by a slash, so
    backtracking cannot succeed where the longest run fails. *)
Definition match_comments_here (s : string) : option string :=
  match strip_prefix "/comments/" s with
  | Some r =>
      let '(g, rest) := span_id r in
      match g, first_char rest with
      | String _ _, Some "/"%char => Some g
      | _, _ => None
      end
  | None => None
  end.

(** [re.search]: try every start position from the left. *)
Fixpoint search (here : string -> option string) (s : string) : option string :=
  match here s with
  | Some g => Some g
  | None => match s with
            | "" => None
            | String _ s' => search here s'
            end
  end.

Definition search_t3 : string -> option string := search match_t3_here.
Definition search_comments : string -> option string := search match_comments_here.

Definition is_word (o : option ascii) : bool :=
  match o with Some c => is_word_char c | None => false end.

(** [\b] between the characters [prev] and [next] ([None] at either end of
    the text). *)
Definition word_boundary (prev next : option ascii) : bool :=
  xorb (is_word prev) (is_word next).

(** [\bsold\b] at the current position, [prev] being the character before. *)
Definition match_sold_here (prev : option ascii) (s : string) : bool :=
  word_boundary prev (first_char s) &&
  match strip_prefix "sold" s with
  | Some rest => word_boundary (Some "d"%char) (first_char rest)
  | None => false
  end.

Fixpoint search_sold_from (prev : option ascii) (s : string) : bool :=
  match_sold_here prev s ||
  match s with
  | "" => false
  | String c s' => search_sold_from (Some c) s'
  end.

(** [bool(re.search(r"\bsold\b", text))] *)
Definition search_sold (text : string) : bool := search_sold_from None text.

End Re.

(** ** Posts *)

Record Post := mkPost {
  p_id : string;
  p_title : string;
  p_url : string;
  p_author : string;
  p_published : string;
  p_content : string;
  p_comments : option Z;
  p_matched_kws : option (list string)
}.

(** ** Matching *)

Definition default_KEYWORDS : list string :=
  ["pachanoi"; "bridgesii"; "peruvianus"; "trichocereus"; "san pedro"; "crest"; "variegata"].

Definition default_FILTER_SOLD : bool := true.

Section Matching.
Variable KEYWORDS : list string.
Variable FILTER_SOLD : bool.

Definition post_text (post : Post) : string :=
  PyStr.lower (p_title post +:+ " " +:+ p_content post).

Definition is_sold (post : Post) : bool :=
  if negb FILTER_SOLD then false
  else Re.search_sold (post_text post).

Definition match_keywords (post : Post) : list string :=
  filter (fun kw => PyStr.contains (PyStr.lower kw) (post_text post) = true) KEYWORDS.

End Matching.

(** ** Feed parsing *)

Module Feed.
Import PyStr.

(** An [atom:link] child of an entry: its [rel] and [href] attributes and
    the number of its own children (an element without children is falsy
    in the [or] that picks the link). *)
Record Link := mkLink {
  l_rel : option string;
  l_href : option string;
  l_children : nat
}.

(** What [parse_rss] reads of one [atom:entry]: the text of the first
    child of each kind ([None] when the child is absent) and the links.
    For the author, the outer option is the [atom:author/atom:name]
    element, the inner one its text. *)
Record Entry := mkEntry {
  e_id : option string;
  e_title : option string;
  e_author : option (option string);
  e_published : option string;
  e_content : option string;
  e_links : list Link
}.

(** [entry.findtext(path, default=d).strip()] *)
Definition findtext (field : option string) (d : string) : string :=
  strip (default d field).

Definition is_alternate (l : Link) : bool :=
  match l_rel l with Some r => String.eqb r "alternate" | None => false end.

(** [entry.find("atom:link[@rel='alternate']") or entry.find("atom:link")] *)
Definition pick_link (links : list Link) : option Link :=
  match List.find is_alternate links with
  | Some l => if (0 <? l_children l)%nat then Some l else head links
  | None => head links
  end.

Definition entry_url (e : Entry) : string :=
  match pick_link (e_links e) with
  | Some l => strip (or_else (default EmptyString (l_href l)) EmptyString)
  | None => EmptyString
  end.

Definition is_u_or_slash (c : ascii) : bool :=
  Ascii.eqb c "u" || Ascii.eqb c "/".

Definition entry_author (e : Entry) : string :=
  match e_author e with
  | Some t => lstrip_by is_u_or_slash (strip (or_else (default EmptyString t) "unknown"))
  | None => "unknown"
  end.

(** [m = re.search(...t3_...) or re.search(.../comments/...)] *)
Definition id_match (id_raw url : string) : option string :=
  match Re.search_t3 id_raw with
  | Some g => Some g
  | None => Re.search_comments url
  end.

(** [post_id = m.group(1) if m else id_raw[-8:] or str(time.time())];
    the conditional expression binds weaker than [or]. *)
Definition extract_post_id (id_raw url time_str : string) : string :=
  match id_match id_raw url with
  | Some g => g
  | None => or_else (last_chars 8 id_raw) time_str
  end.

Definition parse_entry (time_str : string) (e : Entry) : Post :=
  let id_raw := findtext (e_id e) EmptyString in
  let title := findtext (e_title e) "(no title)" in
  let author := entry_author e in
  let published := findtext (e_published e) EmptyString in
  let content := findtext (e_content e) EmptyString in
  let url := entry_url e in
  {| p_id := extract_post_id id_raw url time_str;
     p_title := title;
     p_url := url;
     p_author := author;
     p_published := published;
     p_content := content;
     p_comments := None;
     p_matched_kws := None |}.

(** Drop whatever precedes the first marker that occurs in the text. *)
Fixpoint strip_junk (markers : list string) (xml_text : string) : string :=
  match markers with
  | [] => xml_text
  | marker :: rest =>
      match find marker xml_text with
      | Some idx => drop_chars idx xml_text
      | None => strip_junk rest xml_text
      end
  end.

Section Parse.
(** [ET.fromstring] followed by [root.findall("atom:entry")]; [None] is
    [ET.ParseError]. *)
Variable ET_entries : string -> option (list Entry).
(** [str(time.time())] at the moment the entry of that index is read. *)
Variable time_str : nat -> string.

Definition parse_rss (xml_text : string) : list Post :=
  match ET_entries (strip_junk ["<?xml"; "<feed"; "<rss"] xml_text) with
  | Some entries => imap (fun i e => parse_entry (time_str i) e) entries
  | None => []
  end.

Context {World : Type}.
(** [requests.get(url).text] after [raise_for_status]; [None] is any
    exception. *)
Variable http_get : string -> World -> option string * World.

Definition RSS_URL : string :=
  "https://www.reddit.com/r/sanpedrocactusforsale/new.rss?limit=25".

Definition fetch_posts (after : option string) (w : World) : list Post * World :=
  let url := RSS_URL +:+
             match after with
             | Some (String c a) => "&after=" +:+ String c a
             | _ => EmptyString
             end in
  match http_get url w with
  | (Some text, w') => (parse_rss text, w')
  | (None, w') => ([], w')
  end.
End Parse.

End Feed.

(** ** State management *)

(** The state file.  [FileIds l] is a file holding the JSON array of the
    strings [l], which is what [save_seen_ids] writes; [FileCorrupt] is
    any content that [load_seen_ids] fails to decode. *)
Inductive StateFile :=
| FileMissing
| FileCorrupt
| FileIds (ids : list string).

Definition load_seen_ids (f : StateFile) : gset string :=
  match f with
  | FileIds ids => list_to_set ids
  | _ => ∅
  end.

(** [l[-n:]] for [0 < n] *)
Definition py_last {A} (n : nat) (l : list A) : list A :=
  drop (length l - n) l.

(** [list(seen)[-2000:]]: [elements] is the iteration order of the set, an
    order fixed by the keys and not by the order of insertion. *)
Definition truncate_ids (seen : gset string) : list string :=
  py_last 2000 (elements seen).

Definition save_seen_ids (seen : gset string) : StateFile :=
  FileIds (truncate_ids seen).

(** [persisted f]: the ids a state file holds. *)
Definition persisted (f : StateFile) : list string :=
  match f with FileIds ids => ids | _ => [] end.


(** ** Writing the state file *)

Module Persist.
Import PyStr.

Definition quote : ascii := ascii_of_nat 34.
Definition backslash : ascii := ascii_of_nat 92.

Definition hex_digit (n : nat) : ascii :=
  if (n <? 10)%nat then ascii_of_nat (48 + n) else ascii_of_nat (87 + n).

Definition escape2 (c : ascii) : string := String backslash (String c EmptyString).

(** One character of a JSON string under [ensure_ascii=True]: everything
    outside [' '..'~'], the quote and the backslash are escaped. *)
Definition json_escape_char (c : ascii) : string :=
  let n := code c in
  if (n =? 34)%nat then escape2 quote
  else if (n =? 92)%nat then escape2 backslash
  else if (n =? 10)%nat then escape2 "n"
  else if (n =? 13)%nat then escape2 "r"
  else if (n =? 9)%nat then escape2 "t"
  else if (n =? 8)%nat then escape2 "b"
  else if (n =? 12)%nat then escape2 "f"
  else if between 32 126 c then String c EmptyString
  else escape2 "u" +:+ "00" +:+
       String (hex_digit (n / 16)) (String (hex_digit (n mod 16)) EmptyString).

Fixpoint json_escape (s : string) : string :=
  match s with
  | "" => ""
  | String c s' => json_escape_char c +:+ json_escape s'
  end.

Definition json_string (s : string) : string :=
  String quote (json_escape s +:+ String quote EmptyString).

Fixpoint join (sep : string) (l : list string) : string :=
  match l with
  | [] => ""
  | [x] => x
  | x :: rest => x +:+ sep +:+ join sep rest
  end.

(** [json.dumps(ids)] for a list of strings. *)
Definition json_dumps (ids : list string) : string :=
  "[" +:+ join ", " (map json_string ids) +:+ "]".

(** What the path holds. *)
Inductive Disk :=
| Absent
| Content (text : string).

(** The file operations behind [Path.write_text(data)]: open the path with
    mode ["w"], which creates the file or truncates it to nothing, write
    the data, close. *)
Inductive FileOp :=
| OpenTruncate
| WriteData (data : string)
| Close.

Definition write_text (data : string) : list FileOp :=
  [OpenTruncate; WriteData data; Close].

Definition apply_op (d : Disk) (op : FileOp) : Disk :=
  match op, d with
  | OpenTruncate, _ => Content EmptyString
  | WriteData data, Content text => Content (text +:+ data)
  | WriteData data, Absent => Content data
  | Close, _ => d
  end.

Definition run_ops (ops : list FileOp) (d : Disk) : Disk := foldl apply_op d ops.

(** The contents of the path after every prefix of [ops], the empty prefix
    included: what a reader of the file, or a crash, can find. *)
Definition observable (ops : list FileOp) (d : Disk) : list Disk :=
  map (fun n => run_ops (take n ops) d) (seq 0 (S (length ops))).

(** [save_seen_ids] down to the file operations. *)
Definition save_ops (seen : gset string) : list FileOp :=
  write_text (json_dumps (truncate_ids seen)).

End Persist.

(** ** Main check cycle *)

Definition Qltb (x y : Q) : bool := negb (Qle_bool y x).

(** [cutoff = now - lookback_hours * 3600] when [lookback_hours > 0],
    otherwise [None]. *)
Definition compute_cutoff (now_utc lookback_hours : Q) : option Q :=
  if Qltb 0 lookback_hours
  then Some (now_utc - lookback_hours * 3600)%Q
  else None.

(** The test [if cutoff:]: [None] and [0.0] are falsy. *)
Definition cutoff_active (cutoff : option Q) : option Q :=
  match cutoff with
  | Some c => if Qeq_bool c 0 then None else Some c
  | None => None
  end.

(** [seen.add(p["id"])] for every [p] of [posts]. *)
Definition mark_seen (seen : gset string) (posts : list Post) : gset string :=
  foldl (fun s p => {[p_id p]} ∪ s) seen posts.

Definition set_matched_kws (kws : list string) (p : Post) : Post :=
  {| p_id := p_id p; p_title := p_title p; p_url := p_url p;
     p_author := p_author p; p_published := p_published p;
     p_content := p_content p; p_comments := p_comments p;
     p_matched_kws := Some kws |}.

Definition set_comments (n : option Z) (p : Post) : Post :=
  {| p_id := p_id p; p_title := p_title p; p_url := p_url p;
     p_author := p_author p; p_published := p_published p;
     p_content := p_content p; p_comments := n;
     p_matched_kws := p_matched_kws p |}.

(** What one cycle did: the seen-set it loaded, the cursors of its feed
    requests in order, the new posts it accumulated, the re-fetched first
    page, the seen-set handed to [save_seen_ids], the file written, the
    matches (with their comment counts when there are any) and the world
    it left. *)
Record Cycle {World : Type} := mkCycle {
  c_loaded : gset string;
  c_requests : list (option string);
  c_all_new_posts : list Post;
  c_all_fetched : list Post;
  c_seen : gset string;
  c_file : StateFile;
  c_matches : list Post;
  c_world : World
}.
Arguments Cycle : clear implicits.

Section CheckCycle.
Context {World : Type}.
(** [fetch_posts(after)]: one page of the feed, empty on any failure. *)
Variable fetch_posts : option string -> World -> list Post * World.
(** [fetch_comment_counts(ids)]: a partial map, empty on any failure. *)
Variable fetch_comment_counts : list string -> World -> gmap string Z * World.
(** [datetime.fromisoformat(s).timestamp()]; [None] is any exception. *)
Variable iso_timestamp : string -> option Q.
Variable KEYWORDS : list string.
Variable FILTER_SOLD : bool.

Definition published_time (p : Post) : option Q :=
  iso_timestamp (PyStr.replace_char "Z" "+00:00" (p_published p)).

Definition new_posts_of (seen : gset string) (posts : list Post) : list Post :=
  filter (fun p => p_id p ∉ seen) posts.

(** The [in_window] loop: a post whose time does not parse is kept. *)
Definition within (cutoff : Q) (p : Post) : bool :=
  match published_time p with
  | Some t => Qle_bool cutoff t
  | None => true
  end.

Definition in_window (cutoff : Q) (new_posts : list Post) : list Post :=
  filter (fun p => within cutoff p = true) new_posts.

Definition oldest_time (last_post : Post) : Q :=
  match published_time last_post with
  | Some t => t
  | None => 0
  end.

(** The [while True] loop, with a bound on the number of pages. *)
Fixpoint paginate (fuel : nat) (seen : gset string) (cutoff : option Q)
    (after : option string) (w : World)
    (all_new_posts : list Post) (requests : list (option string))
  : option (list Post * list (option string) * World) :=
  match fuel with
  | O => None
  | S fuel' =>
      let '(posts, w1) := fetch_posts after w in
      let requests1 := (requests ++ [after])%list in
      match posts with
      | [] => Some (all_new_posts, requests1, w1)
      | first :: _ =>
          let new_posts := new_posts_of seen posts in
          match cutoff_active cutoff with
          | Some c =>
              let all1 := (all_new_posts ++ in_window c new_posts)%list in
              let last_post := List.last posts first in
              if Qltb (oldest_time last_post) c || (length posts <? 25)%nat
              then Some (all1, requests1, w1)
              else paginate fuel' seen cutoff
                     (Some ("t3_" +:+ p_id last_post)) w1 all1 requests1
          | None => Some ((all_new_posts ++ new_posts)%list, requests1, w1)
          end
      end
  end.

(** The filter loop over [all_new_posts]. *)
Definition select_matches (posts : list Post) : list Post :=
  omap (fun p =>
          if is_sold FILTER_SOLD p then None
          else match match_keywords KEYWORDS p with
               | [] => None
               | kws => Some (set_matched_kws kws p)
               end) posts.

Definition enrich (counts : gmap string Z) (matches : list Post) : list Post :=
  map (fun p => set_comments (counts !! p_id p) p) matches.

(** One cycle, up to the matches handed to [send_email]; the e-mail itself
    is left out.  [now_utc] is the clock read at the start. *)
Definition check (fuel : nat) (lookback_hours now_utc : Q)
    (file : StateFile) (w : World) : option (Cycle World) :=
  let seen := load_seen_ids file in
  let cutoff := compute_cutoff now_utc lookback_hours in
  match paginate fuel seen cutoff None w [] [] with
  | None => None
  | Some (all_new_posts, requests, w1) =>
      let '(all_fetched, w2) := fetch_posts None w1 in
      let seen1 := mark_seen (mark_seen seen all_fetched) all_new_posts in
      let file1 := save_seen_ids seen1 in
      let matches := select_matches all_new_posts in
      let '(matches1, w3) :=
        match matches with
        | [] => ([], w2)
        | _ => let '(counts, w3) := fetch_comment_counts (map p_id matches) w2 in
               (enrich counts matches, w3)
        end in
      Some {| c_loaded := seen;
              c_requests := (requests ++ [None])%list;
              c_all_new_posts := all_new_posts;
              c_all_fetched := all_fetched;
              c_seen := seen1;
              c_file := file1;
              c_matches := matches1;
              c_world := w3 |}
  end.

(** The [--watch] loop: one cycle per clock reading of [nows], the first
    with the lookback, the others without. *)
Fixpoint watch (fuel : nat) (lookback : Q) (first_run : bool) (nows : list Q)
    (file : StateFile) (w : World) : option (StateFile * World) :=
  match nows with
  | [] => Some (file, w)
  | now_utc :: rest =>
      match check fuel (if first_run then lookback else 0) now_utc file w with
      | Some c => watch fuel lookback false rest (c_file c) (c_world c)
      | None => None
      end
  end.

End CheckCycle.

(** ** Concrete feeds *)

Module Scenario.
Import PyStr.

Definition digit_of (c : ascii) : option Z :=
  if between 48 57 c then Some (Z.of_nat (code c) - 48)%Z else None.

Fixpoint number_go (acc : Z) (s : string) : option Z :=
  match s with
  | "" => Some acc
  | String c s' =>
      match digit_of c with
      | Some d => number_go (10 * acc + d)%Z s'
      | None => None
      end
  end.

Definition number (s : string) : option Z :=
  match s with "" => None | _ => number_go 0 s end.

(** Days between 1970-01-01 and the given date of the proleptic Gregorian
    calendar. *)
Definition days_from_civil (y m d : Z) : Z :=
  let y1 := (if m <=? 2 then y - 1 else y)%Z in
  let era := (y1 / 400)%Z in
  let yoe := (y1 - era * 400)%Z in
  let mp := ((m + 9) mod 12)%Z in
  let doy := ((153 * mp + 2) / 5 + d - 1)%Z in
  let doe := (yoe * 365 + yoe / 4 - yoe / 100 + doy)%Z in
  (era * 146097 + doe - 719468)%Z.

Definition leap (y : Z) : bool :=
  ((y mod 4 =? 0) && (negb (y mod 100 =? 0) || (y mod 400 =? 0)))%Z.

Definition days_in_month (y m : Z) : Z :=
  if (m =? 2)%Z then (if leap y then 29 else 28)%Z
  else if ((m =? 4) || (m =? 6) || (m =? 9) || (m =? 11))%Z then 30%Z
  else 31%Z.

(** [datetime.fromisoformat(s).timestamp()] on the strings of the shape
    [YYYY-MM-DDTHH:MM:SS+00:00], the shape of the feed's [published]
    field; [None] on every other string, among them the empty string and
    all text that is no ISO date. *)
Definition iso_utc (s : string) : option Q :=
  if (String.length s =? 25)%nat then
    match number (substring 0 4 s), number (substring 5 2 s),
          number (substring 8 2 s), number (substring 11 2 s),
          number (substring 14 2 s), number (substring 17 2 s) with
    | Some y, Some m, Some d, Some hh, Some mm, Some ss =>
        if String.eqb (substring 4 1 s) "-" && String.eqb (substring 7 1 s) "-"
           && String.eqb (substring 10 1 s) "T"
           && String.eqb (substring 13 1 s) ":" && String.eqb (substring 16 1 s) ":"
           && String.eqb (substring 19 6 s) "+00:00"
           && (1 <=? y)%Z && (1 <=? m)%Z && (m <=? 12)%Z
           && (1 <=? d)%Z && (d <=? days_in_month y m)%Z
           && (hh <? 24)%Z && (mm <? 60)%Z && (ss <? 60)%Z
        then Some (inject_Z (days_from_civil y m d * 86400 + hh * 3600 + mm * 60 + ss))
        else None
    | _, _, _, _, _, _ => None
    end
  else None.

Definition digit_char (n : nat) : ascii := ascii_of_nat (48 + n mod 10).

Definition two_digits (n : nat) : string :=
  String (digit_char (n / 10)) (String (digit_char n) EmptyString).

Fixpoint decimal_go (fuel n : nat) (acc : string) : string :=
  match fuel with
  | O => acc
  | S fuel' =>
      let acc1 := String (digit_char n) acc in
      if (n / 10 =? 0)%nat then acc1 else decimal_go fuel' (n / 10) acc1
  end.

Definition decimal (n : nat) : string := decimal_go (S n) n EmptyString.

(** The time [secs] seconds after midnight of 1 January 2024, UTC. *)
Definition stamp (secs : nat) : string :=
  "2024-01-01T" +:+ two_digits (secs / 3600) +:+ ":" +:+
  two_digits (secs / 60 mod 60) +:+ ":" +:+ two_digits (secs mod 60) +:+ "+00:00".

Definition midnight : Z := 1704067200.

Definition post_with (id title published : string) : Post :=
  {| p_id := id;
     p_title := title;
     p_url := "https://www.reddit.com/r/sanpedrocactusforsale/comments/" +:+ id +:+ "/post/";
     p_author := "grower";
     p_published := published;
     p_content := EmptyString;
     p_comments := None;
     p_matched_kws := None |}.

(** Post number [i] of a feed, newest first: one post a second, the newest
    at 01:06:40. *)
Definition post_at (i : nat) : Post :=
  post_with ("a" +:+ decimal i) "Pachanoi cutting" (stamp (4000 - i)).

Definition feed (n : nat) : list Post := map post_at (seq 0 n).

(** The same posts without a [published] text. *)
Definition undated_feed (n : nat) : list Post :=
  map (fun i => post_with ("a" +:+ decimal i) "Pachanoi cutting" EmptyString) (seq 0 n).

Fixpoint after_cursor (cursor : string) (posts : list Post) : list Post :=
  match posts with
  | [] => []
  | p :: rest =>
      if String.eqb ("t3_" +:+ p_id p) cursor then rest
      else after_cursor cursor rest
  end.

(** A feed that does not change: every request is answered with the 25
    posts that follow the cursor. *)
Definition serve (posts : list Post) (after : option string) (w : unit)
  : list Post * unit :=
  (take 25 match after with
           | None => posts
           | Some cursor => after_cursor cursor posts
           end, tt).

Definition no_counts (ids : list string) (w : unit) : gmap string Z * unit := (∅, tt).

Definition run (posts : list Post) (fuel : nat) (lookback_hours now_utc : Q)
    (file : StateFile) : option (Cycle unit) :=
  check (serve posts) no_counts iso_utc default_KEYWORDS default_FILTER_SOLD
        fuel lookback_hours now_utc file tt.

(** 01:06:40 on 1 January 2024. *)
Definition now_utc : Q := inject_Z (midnight + 4000).

(** The ids of the first [n] posts, in the order of their numbers. *)
Definition ids_from (j n : nat) : list string :=
  map (fun i => "a" +:+ decimal i) (seq j n).

Definition ids (n : nat) : list string := ids_from 0 n.

(** The number in an id of [ids]. *)
Definition id_number (id : string) : option Z := number (drop_chars 1 id).

(** The published times of a page, when all of them parse. *)
Definition page_times (page : list Post) : list Q :=
  default [] (mapM (published_time iso_utc) page).

(** Every time is earlier than the one before it. *)
Fixpoint falling (times : list Q) : bool :=
  match times with
  | a :: (b :: _) as rest => Qltb b a && falling rest
  | _ => true
  end.

End Scenario.

(** ** Specification predicates *)

Module Spec.
Import PyStr.

(** [needle] occurs somewhere in [hay]. *)
Definition occurs_in (needle hay : string) : Prop :=
  exists pre post, hay = pre +:+ needle +:+ post.

(** [w] occurs in [text] with no word character next to it on either side. *)
Definition whole_word_in (w text : string) : Prop :=
  exists pre post,
    text = pre +:+ w +:+ post /\
    Re.is_word (last_char pre) = false /\
    Re.is_word (first_char post) = false.

Definition is_id (o : option ascii) : bool :=
  match o with Some c => is_id_char c | None => false end.

(** A non-empty run of [[a-z0-9]]. *)
Definition id_run (g : string) : Prop :=
  g <> EmptyString /\ all_chars is_id_char g.

(** [lead] followed by the id [g], the longest there is at that place, and,
    when [slash] is set, by a slash: an occurrence of the pattern at offset
    [length pre] of [s]. *)
Definition pattern_at (lead : string) (slash : bool) (s pre g : string) : Prop :=
  exists post,
    s = pre +:+ lead +:+ g +:+ post /\
    id_run g /\
    if slash then first_char post = Some "/"%char else is_id (first_char post) = false.

(** The leftmost occurrence of the pattern in [s] carries the id [g]. *)
Definition leftmost (lead : string) (slash : bool) (s g : string) : Prop :=
  exists pre,
    pattern_at lead slash s pre g /\
    forall pre' g', pattern_at lead slash s pre' g' -> String.length pre <= String.length pre'.

Definition absent (lead : string) (slash : bool) (s : string) : Prop :=
  forall pre g, ~ pattern_at lead slash s pre g.

(** The opaque id holds [t3_<id>]; the URL holds [/comments/<id>/]. *)
Definition t3_pattern : string -> string -> Prop := leftmost "t3_" false.
Definition no_t3_pattern : string -> Prop := absent "t3_" false.
Definition comments_pattern : string -> string -> Prop := leftmost "/comments/" true.
Definition no_comments_pattern : string -> Prop := absent "/comments/" true.

(** Strictly decreasing times, newest first. *)
Definition decreasing (times : list Q) : Prop :=
  forall i j a b, times !! i = Some a -> times !! j = Some b -> i < j -> (b < a)%Q.

(** Every state the file goes through while it is saved is the old
    content or the complete new one. *)
Definition atomic_save (old : Persist.Disk) (ops : list Persist.FileOp) : Prop :=
  forall d, d ∈ Persist.observable ops old -> d = old \/ d = Persist.run_ops ops old.

(** The computation gave a result. *)
Definition is_some {A} (o : option A) : bool :=
  match o with Some _ => true | None => false end.

(** [seen.add(x)] for every [x] of [ins], from left to right. *)
Definition add_all (seen : gset string) (ins : list string) : gset string :=
  foldl (fun s x => {[x]} ∪ s) seen ins.

(** Of the ids inserted one after the other into an empty set, saving keeps
    the 2000 inserted last. *)
Definition keeps_most_recent (inserted : list string) : Prop :=
  forall x, x ∈ truncate_ids (add_all ∅ inserted) <-> x ∈ py_last 2000 inserted.

End Spec.

(** ** Comment counts *)

Module Counts.

(** The two members of [child["data"]] that are read, an id string and a
    count; [None] is a missing key. *)
Record ChildData := mkChildData {
  cd_id : option string;
  cd_num_comments : option Z
}.

(** A child of [data["data"]["children"]]: its ["data"] member when it has
    one. *)
Record Child := mkChild {
  ch_data : option ChildData
}.

(** [https://www.reddit.com/by_id/t3_a,t3_b.json] *)
Definition by_id_url (post_ids : list string) : string :=
  "https://www.reddit.com/by_id/" +:+
  Persist.join "," (map (fun pid => "t3_" +:+ pid) post_ids) +:+ ".json".

(** The dict comprehension over the children, from left to right: a child
    without ["data"] is skipped, a later child replaces an earlier one with
    the same id, and a missing ["id"] or ["num_comments"] raises
    ([None]). *)
Fixpoint collect (children : list Child) (counts : gmap string Z)
  : option (gmap string Z) :=
  match children with
  | [] => Some counts
  | child :: rest =>
      match ch_data child with
      | None => collect rest counts
      | Some d =>
          match cd_id d, cd_num_comments d with
          | Some id, Some n => collect rest (<[id := n]> counts)
          | _, _ => None
          end
      end
  end.

Section Fetch.
Context {World : Type}.
(** [requests.get(url)], [raise_for_status], [resp.json()] and
    [data.get("data", {}).get("children", [])]; [None] is any exception. *)
Variable get_children : string -> World -> option (list Child) * World.

Definition fetch_comment_counts (post_ids : list string) (w : World)
  : gmap string Z * World :=
  match post_ids with
  | [] => (∅, w)
  | _ =>
      match get_children (by_id_url post_ids) w with
      | (Some children, w') => (default ∅ (collect children ∅), w')
      | (None, w') => (∅, w')
      end
  end.
End Fetch.

End Counts.

(** ** More specification predicates *)

Module Spec2.
Import PyStr.

(** The character is there and [f] holds of it. *)
Definition holds (f : ascii -> bool) (o : option ascii) : bool :=
  match o with Some c => f c | None => false end.

(** No white space at either end. *)
Definition trimmed (s : string) : Prop :=
  holds is_space (first_char s) = false /\ holds is_space (last_char s) = false.

(** Printable ASCII, from the space to the tilde. *)
Definition printable (c : ascii) : bool := between 32 126 c.

Definition is_blank (c : ascii) : bool := Ascii.eqb c " ".

(** No space character in the string. *)
Definition no_blank (s : string) : Prop :=
  all_chars (fun c => negb (is_blank c)) s.

(** The count of the last child that carries the id [id], if any. *)
Fixpoint last_count (id : string) (children : list Counts.Child) : option Z :=
  match children with
  | [] => None
  | child :: rest =>
      match last_count id rest with
      | Some n => Some n
      | None =>
          match Counts.ch_data child with
          | Some d => if decide (Counts.cd_id d = Some id)
                      then Counts.cd_num_comments d else None
          | None => None
          end
      end
  end.

(** Every child that has ["data"] has both keys. *)
Definition well_formed (children : list Counts.Child) : Prop :=
  forall child d, child ∈ children -> Counts.ch_data child = Some d ->
                  is_Some (Counts.cd_id d) /\ is_Some (Counts.cd_num_comments d).

End Spec2.

(** * Properties *)

(** ** The concrete clock and the patterns on known values *)

Example iso_utc_epoch :
  Scenario.iso_utc "1970-01-01T00:00:00+00:00" = Some (inject_Z 0).
Proof. reflexivity. Qed.

Example iso_utc_2024 :
  Scenario.iso_utc "2024-01-01T00:00:00+00:00" = Some (inject_Z 1704067200).
Proof. reflexivity. Qed.

Example iso_utc_leap_day :
  Scenario.iso_utc "2024-02-29T12:30:15+00:00" = Some (inject_Z 1709209815).
Proof. reflexivity. Qed.

Example iso_utc_not_a_date :
  Scenario.iso_utc EmptyString = None /\ Scenario.iso_utc "2023-02-29T00:00:00+00:00" = None.
Proof. split; reflexivity. Qed.

Example published_time_zulu :
  published_time Scenario.iso_utc
    (Scenario.post_with "abc123" "Bridgesii" "2024-01-01T01:06:40Z")
  = Some Scenario.now_utc.
Proof. reflexivity. Qed.

Example search_t3_example : Re.search_t3 "tag:t3_1abc2d-x" = Some "1abc2d".
Proof. reflexivity. Qed.

Example search_comments_example :
  Re.search_comments "https://www.reddit.com/r/sanpedrocactusforsale/comments/1abc2d/pc/"
  = Some "1abc2d".
Proof. reflexivity. Qed.

Example search_comments_needs_slash :
  Re.search_comments "https://www.reddit.com/comments/1abc2d" = None.
Proof. reflexivity. Qed.

Example strip_example :
  PyStr.strip "  t3_abc123 " = "t3_abc123" /\ PyStr.last_chars 8 "0123456789" = "23456789".
Proof. split; reflexivity. Qed.

(** ** Strings *)

Section StringFacts.
Import PyStr.

Lemma str_app_cons c s t : String c s +:+ t = String c (s +:+ t).
Proof. reflexivity. Qed.

Lemma str_app_empty_l s : EmptyString +:+ s = s.
Proof. reflexivity. Qed.

Lemma str_app_length s t : String.length (s +:+ t) = String.length s + String.length t.
Proof. induction s as [|c s IH]; [done|]. rewrite str_app_cons. simpl. by rewrite IH. Qed.

Lemma strip_prefix_app p r : strip_prefix p (p +:+ r) = Some r.
Proof.
  induction p as [|a p IH]; [by destruct r|].
  rewrite str_app_cons. simpl. by rewrite Ascii.eqb_refl.
Qed.

Lemma strip_prefix_Some p s r : strip_prefix p s = Some r -> s = p +:+ r.
Proof.
  revert s. induction p as [|a p IH]; intros s H.
  - destruct s; simpl in H; by inversion H.
  - destruct s as [|b s]; simpl in H; [done|].
    destruct (Ascii.eqb_spec a b) as [->|]; [|done].
    rewrite str_app_cons. f_equal. by apply IH.
Qed.

Lemma contains_occurs needle hay :
  contains needle hay = true <-> Spec.occurs_in needle hay.
Proof.
  unfold Spec.occurs_in. induction hay as [|c hay IH].
  - simpl. destruct (strip_prefix needle "") as [r|] eqn:E.
    + apply strip_prefix_Some in E. split; [|done]. intros _.
      exists EmptyString, r. by rewrite str_app_empty_l.
    + split; [done|]. intros (pre & post & H).
      destruct pre; [|done]. rewrite str_app_empty_l in H.
      rewrite H, strip_prefix_app in E. done.
  - simpl. destruct (strip_prefix needle (String c hay)) as [r|] eqn:E.
    + apply strip_prefix_Some in E. split; [|done]. intros _.
      exists EmptyString, r. by rewrite str_app_empty_l.
    + rewrite IH. split.
      * intros (pre & post & ->). exists (String c pre), post. by rewrite str_app_cons.
      * intros (pre & post & H). destruct pre as [|c' pre].
        { rewrite str_app_empty_l in H. rewrite H, strip_prefix_app in E. done. }
        rewrite str_app_cons in H. inversion H; subst. by exists pre, post.
Qed.

Lemma last_char_cons c s : last_char (String c s) = Some (default c (last_char s)).
Proof.
  revert c. induction s as [|b s IH]; intros c; [reflexivity|].
  change (last_char (String c (String b s))) with (last_char (String b s)).
  by rewrite IH.
Qed.

Lemma drop_chars_suffix n s :
  exists pre, s = pre +:+ drop_chars n s /\
              String.length pre = Nat.min n (String.length s).
Proof.
  revert s. induction n as [|n IH]; intros s.
  - exists EmptyString. by destruct s.
  - destruct s as [|c s]; [by exists EmptyString|].
    destruct (IH s) as (pre & Hs & Hl). exists (String c pre). simpl.
    split; [rewrite str_app_cons; by rewrite <- Hs|by rewrite Hl].
Qed.

Lemma last_chars_suffix n s :
  exists pre, s = pre +:+ last_chars n s /\
              String.length (last_chars n s) = Nat.min n (String.length s).
Proof.
  unfold last_chars.
  destruct (drop_chars_suffix (String.length s - n) s) as (pre & Hs & Hl).
  exists pre. split; [done|].
  apply (f_equal String.length) in Hs. rewrite str_app_length in Hs. lia.
Qed.

Lemma all_chars_nil f : all_chars f EmptyString.
Proof. intros c []. Qed.

Lemma all_chars_cons f c s :
  all_chars f (String c s) <-> f c = true /\ all_chars f s.
Proof.
  unfold all_chars. simpl. split.
  - intros H. split; [apply H; by left|]. intros d Hd. apply H. by right.
  - intros [Hc Hs] d [<-|Hd]; [done|by apply Hs].
Qed.

End StringFacts.

(** ** The exclusion filter *)

Section SoldFacts.
Import PyStr.

Lemma match_sold_here_iff prev s :
  Re.match_sold_here prev s = true <->
  exists post, s = "sold" +:+ post /\ Re.is_word prev = false /\
               Re.is_word (first_char post) = false.
Proof.
  unfold Re.match_sold_here, Re.word_boundary. split.
  - intros [Hb Hs]%andb_true_iff.
    destruct (strip_prefix "sold" s) as [rest|] eqn:E; [|done].
    apply strip_prefix_Some in E. subst s. exists rest.
    split; [done|]. simpl in Hb, Hs.
    change (is_word_char "s") with true in Hb.
    change (is_word_char "d") with true in Hs.
    split; [by destruct (Re.is_word prev)|by destruct (Re.is_word (first_char rest))].
  - intros (post & -> & Hp & Hn). rewrite strip_prefix_app.
    simpl. rewrite Hp, Hn. reflexivity.
Qed.

Lemma search_sold_from_iff prev s :
  Re.search_sold_from prev s = true <->
  exists pre post,
    s = pre +:+ "sold" +:+ post /\
    Re.is_word (match last_char pre with Some c => Some c | None => prev end) = false /\
    Re.is_word (first_char post) = false.
Proof.
  revert prev. induction s as [|c s IH]; intros prev.
  - split.
    + simpl. rewrite orb_false_r. intros (post & H & _)%match_sold_here_iff. done.
    + intros (pre & post & H & _). by destruct pre.
  - cbn [Re.search_sold_from]. rewrite orb_true_iff, match_sold_here_iff, IH. split.
    + intros [(post & -> & Hp & Hn)|(pre & post & -> & Hp & Hn)].
      * by exists EmptyString, post.
      * exists (String c pre), post. split; [done|]. split; [|done].
        rewrite last_char_cons. by destruct (last_char pre).
    + intros (pre & post & H & Hp & Hn). destruct pre as [|c' pre].
      * left. by exists post.
      * right. rewrite str_app_cons in H. inversion H; subst c' s.
        exists pre, post. split; [done|]. split; [|done].
        rewrite last_char_cons in Hp. by destruct (last_char pre).
Qed.

Lemma search_sold_iff text :
  Re.search_sold text = true <-> Spec.whole_word_in "sold" text.
Proof.
  unfold Re.search_sold, Spec.whole_word_in. rewrite search_sold_from_iff.
  split; intros (pre & post & H & Hp & Hn); exists pre, post;
    (split; [done|split; [|done]]); by destruct (last_char pre).
Qed.

End SoldFacts.

(** C7.  [is_sold] answers true exactly when the exclusion policy is on and
    "sold" stands as a whole word, no word character on either side, in the
    lower-cased text made of the title, one space and the content.  A post
    titled "consoled" is not excluded; a post titled "Sold - Pachanoi" is. *)
Theorem is_sold_whole_word :
  (forall (FILTER_SOLD : bool) (post : Post),
     is_sold FILTER_SOLD post = true <->
     FILTER_SOLD = true /\
     Spec.whole_word_in "sold"
       (PyStr.lower (p_title post +:+ " " +:+ p_content post))) /\
  (forall id published,
     is_sold true (Scenario.post_with id "consoled" published) = false) /\
  (forall id published,
     is_sold true (Scenario.post_with id "Sold - Pachanoi" published) = true).
Proof.
  split; [|split; reflexivity].
  intros FILTER_SOLD post. unfold is_sold, post_text.
  destruct FILTER_SOLD; simpl.
  - rewrite search_sold_iff. tauto.
  - split; [done|]. by intros [? _].
Qed.

(** ** The keyword filter *)

#[local] Instance occurs_in_dec needle hay : Decision (Spec.occurs_in needle hay).
Proof.
  destruct (PyStr.contains needle hay) eqn:E.
  - left. by apply contains_occurs.
  - right. intros H%contains_occurs. congruence.
Defined.

(** C8.  [match_keywords] returns the configured keywords whose lower-cased
    form occurs somewhere in the lower-cased text made of the title, one
    space and the content: all of them, nothing else, in the configured
    order.  The result is empty exactly when no keyword occurs.  A post
    titled "Trichocereus Pachanoi for sale" matches "pachanoi". *)
Theorem match_keywords_substring :
  (forall (KEYWORDS : list string) (post : Post),
     let text := PyStr.lower (p_title post +:+ " " +:+ p_content post) in
     match_keywords KEYWORDS post =
       filter (fun kw => Spec.occurs_in (PyStr.lower kw) text) KEYWORDS /\
     (forall kw, kw ∈ match_keywords KEYWORDS post <->
                 kw ∈ KEYWORDS /\ Spec.occurs_in (PyStr.lower kw) text) /\
     (match_keywords KEYWORDS post = [] <->
      forall kw, kw ∈ KEYWORDS -> ~ Spec.occurs_in (PyStr.lower kw) text)) /\
  (forall id published,
     "pachanoi" ∈ match_keywords default_KEYWORDS
       (Scenario.post_with id "Trichocereus Pachanoi for sale" published)).
Proof.
  split.
  - intros KEYWORDS post text.
    assert (Hf : match_keywords KEYWORDS post =
                 filter (fun kw => Spec.occurs_in (PyStr.lower kw) text) KEYWORDS).
    { unfold match_keywords, post_text. apply list_filter_iff.
      intros kw. apply contains_occurs. }
    split; [exact Hf|]. split.
    + intros kw. rewrite Hf, list_elem_of_filter. tauto.
    + rewrite Hf. split.
      * intros Hnil kw Hin Hocc.
        assert (kw ∈ filter (fun kw => Spec.occurs_in (PyStr.lower kw) text) KEYWORDS) as Hk
          by (apply list_elem_of_filter; done).
        rewrite Hnil in Hk. by apply not_elem_of_nil in Hk.
      * intros Hno. apply elem_of_nil_inv. intros kw [Hocc Hin]%list_elem_of_filter.
        by apply (Hno kw).
  - intros id published.
    assert (match_keywords default_KEYWORDS
              (Scenario.post_with id "Trichocereus Pachanoi for sale" published)
            = ["pachanoi"; "trichocereus"]) as -> by reflexivity.
    constructor.
Qed.

(** ** Post ids *)

Section IdFacts.
Import PyStr.

Lemma span_id_spec s g r :
  Re.span_id s = (g, r) ->
  s = g +:+ r /\ all_chars is_id_char g /\ Spec.is_id (first_char r) = false.
Proof.
  revert g r. induction s as [|c s IH]; intros g r H; simpl in H.
  - inversion H; subst. split; [done|]. split; [apply all_chars_nil|done].
  - destruct (is_id_char c) eqn:Ec.
    + destruct (Re.span_id s) as [g0 r0]. inversion H; subst g r.
      destruct (IH g0 r0 eq_refl) as (-> & Hg & Hr).
      split; [done|]. split; [|done]. by apply all_chars_cons.
    + inversion H; subst g r. split; [done|]. split; [apply all_chars_nil|].
      simpl. exact Ec.
Qed.

Lemma span_id_app g r :
  all_chars is_id_char g -> Spec.is_id (first_char r) = false ->
  Re.span_id (g +:+ r) = (g, r).
Proof.
  intros Hg Hr. induction g as [|c g IH].
  - rewrite str_app_empty_l. destruct r as [|d r]; [done|].
    simpl in *. by rewrite Hr.
  - apply all_chars_cons in Hg as [Hc Hg]. rewrite str_app_cons. simpl.
    by rewrite Hc, (IH Hg).
Qed.

Lemma first_slash_not_id post :
  first_char post = Some "/"%char -> Spec.is_id (first_char post) = false.
Proof. by intros ->. Qed.

Lemma match_t3_here_iff s g :
  Re.match_t3_here s = Some g <-> Spec.pattern_at "t3_" false s EmptyString g.
Proof.
  unfold Re.match_t3_here, Spec.pattern_at, Spec.id_run.
  setoid_rewrite str_app_empty_l. split.
  - destruct (strip_prefix "t3_" s) as [r|] eqn:E; [|done].
    apply strip_prefix_Some in E. subst s.
    destruct (Re.span_id r) as [g0 r0] eqn:Es. simpl.
    apply span_id_spec in Es as (-> & Hg & Hr).
    destruct g0 as [|c g0]; [done|]. intros [= <-]. by exists r0.
  - intros (post & -> & [Hne Hg] & Hp). rewrite strip_prefix_app, (span_id_app _ _ Hg Hp).
    simpl. by destruct g.
Qed.

Lemma match_comments_here_iff s g :
  Re.match_comments_here s = Some g <->
  Spec.pattern_at "/comments/" true s EmptyString g.
Proof.
  unfold Re.match_comments_here, Spec.pattern_at, Spec.id_run.
  setoid_rewrite str_app_empty_l. split.
  - destruct (strip_prefix "/comments/" s) as [r|] eqn:E; [|done].
    apply strip_prefix_Some in E. subst s.
    destruct (Re.span_id r) as [g0 r0] eqn:Es.
    apply span_id_spec in Es as (-> & Hg & Hr).
    destruct g0 as [|c g0]; [done|].
    destruct (first_char r0) as [d|] eqn:Ed; [|done].
    destruct (Ascii.eqb_spec d "/") as [->|Hd].
    + intros [= <-]. by exists r0.
    + intros H. exfalso. revert H.
      destruct d as [[] [] [] [] [] [] [] []]; done.
  - intros (post & -> & [Hne Hg] & Hp).
    rewrite strip_prefix_app, (span_id_app _ _ Hg (first_slash_not_id _ Hp)), Hp.
    by destruct g.
Qed.

Lemma pattern_at_shift lead slash s pre g :
  Spec.pattern_at lead slash s pre g <->
  exists rest, s = pre +:+ rest /\ Spec.pattern_at lead slash rest EmptyString g.
Proof.
  unfold Spec.pattern_at. split.
  - intros (post & -> & Hg & Hp). exists (lead +:+ g +:+ post).
    split; [done|]. by exists post.
  - intros (rest & -> & post & -> & Hg & Hp). by exists post.
Qed.

(** [re.search] finds the leftmost place where the pattern matches. *)
Section Search.
Variable here : string -> option string.

Lemma search_Some s g :
  Re.search here s = Some g <->
  exists pre rest,
    s = pre +:+ rest /\ here rest = Some g /\
    forall pre' rest', s = pre' +:+ rest' ->
                       String.length pre' < String.length pre -> here rest' = None.
Proof.
  induction s as [|c s IH].
  - simpl. split.
    + intros H. exists EmptyString, EmptyString. split; [done|]. split.
      * by destruct (here "").
      * simpl. lia.
    + intros (pre & rest & H & Hh & _). destruct pre; [|done].
      rewrite str_app_empty_l in H. subst rest. by rewrite Hh.
  - cbn [Re.search]. destruct (here (String c s)) as [g0|] eqn:E.
    + split.
      * intros [= <-]. exists EmptyString, (String c s). split; [done|].
        split; [done|]. simpl. lia.
      * intros (pre & rest & H & Hh & Hmin). destruct pre as [|c' pre].
        { rewrite str_app_empty_l in H. subst rest. congruence. }
        specialize (Hmin EmptyString (String c s) eq_refl). simpl in Hmin.
        rewrite E in Hmin. discriminate Hmin. lia.
    + rewrite IH. split.
      * intros (pre & rest & -> & Hh & Hmin). exists (String c pre), rest.
        split; [done|]. split; [done|]. intros pre' rest' H Hl.
        destruct pre' as [|c' pre'].
        { rewrite str_app_empty_l in H. by subst rest'. }
        rewrite !str_app_cons in H. inversion H as [[Hc Hs]].
        apply (Hmin pre' rest' Hs). simpl in Hl. lia.
      * intros (pre & rest & H & Hh & Hmin). destruct pre as [|c' pre].
        { rewrite str_app_empty_l in H. subst rest. congruence. }
        rewrite str_app_cons in H. inversion H; subst c' s.
        exists pre, rest. split; [done|]. split; [done|].
        intros pre' rest' H' Hl. apply (Hmin (String c pre') rest').
        { by rewrite str_app_cons, H'. }
        simpl. lia.
Qed.

Lemma search_None s :
  Re.search here s = None <-> forall pre rest, s = pre +:+ rest -> here rest = None.
Proof.
  induction s as [|c s IH].
  - simpl. split.
    + intros H pre rest Hs. destruct pre; [|done]. rewrite str_app_empty_l in Hs.
      subst rest. by destruct (here "").
    + intros H. by rewrite (H EmptyString EmptyString eq_refl).
  - cbn [Re.search]. destruct (here (String c s)) as [g0|] eqn:E.
    + split; [done|]. intros H. specialize (H EmptyString (String c s) eq_refl).
      congruence.
    + rewrite IH. split.
      * intros H pre rest Hs. destruct pre as [|c' pre].
        { rewrite str_app_empty_l in Hs. by subst rest. }
        rewrite str_app_cons in Hs. inversion Hs; subst. by apply (H pre rest).
      * intros H pre rest ->. apply (H (String c pre) rest). by rewrite str_app_cons.
Qed.

Variables (lead : string) (slash : bool).
Hypothesis here_iff :
  forall s g, here s = Some g <-> Spec.pattern_at lead slash s EmptyString g.

Lemma here_None s pre rest :
  s = pre +:+ rest -> here rest = None -> forall g, ~ Spec.pattern_at lead slash s pre g.
Proof.
  intros -> Hn g (rest' & Hs & Hp)%pattern_at_shift.
  apply String.app_inj in Hs. subst rest'. apply here_iff in Hp. congruence.
Qed.

Lemma search_leftmost s g :
  Re.search here s = Some g <-> Spec.leftmost lead slash s g.
Proof.
  rewrite search_Some. unfold Spec.leftmost. split.
  - intros (pre & rest & -> & Hh & Hmin). exists pre. split.
    + apply pattern_at_shift. exists rest. split; [done|]. by apply here_iff.
    + intros pre' g' (rest' & Hs & Hp)%pattern_at_shift.
      destruct (decide (String.length pre <= String.length pre')) as [|Hlt]; [done|].
      apply here_iff in Hp. rewrite (Hmin pre' rest' Hs) in Hp; [done|lia].
  - intros (pre & (rest & -> & Hp)%pattern_at_shift & Hmin).
    exists pre, rest. split; [done|]. split; [by apply here_iff|].
    intros pre' rest' Hs Hl. destruct (here rest') as [g'|] eqn:E; [|done].
    apply here_iff in E.
    assert (Spec.pattern_at lead slash (pre +:+ rest) pre' g') as Hp'
      by (apply pattern_at_shift; by exists rest').
    apply Hmin in Hp'. lia.
Qed.

Lemma search_absent s :
  Re.search here s = None <-> Spec.absent lead slash s.
Proof.
  rewrite search_None. unfold Spec.absent. split.
  - intros H pre g (rest & Hs & Hp)%pattern_at_shift.
    apply here_iff in Hp. rewrite (H pre rest Hs) in Hp. done.
  - intros H pre rest Hs. destruct (here rest) as [g|] eqn:E; [|done].
    apply here_iff in E. exfalso. apply (H pre g).
    apply pattern_at_shift. by exists rest.
Qed.

End Search.

Lemma search_t3_leftmost s g : Re.search_t3 s = Some g <-> Spec.t3_pattern s g.
Proof. apply search_leftmost, match_t3_here_iff. Qed.

Lemma search_t3_absent s : Re.search_t3 s = None <-> Spec.no_t3_pattern s.
Proof. apply search_absent, match_t3_here_iff. Qed.

Lemma search_comments_leftmost s g :
  Re.search_comments s = Some g <-> Spec.comments_pattern s g.
Proof. apply search_leftmost, match_comments_here_iff. Qed.

Lemma search_comments_absent s :
  Re.search_comments s = None <-> Spec.no_comments_pattern s.
Proof. apply search_absent, match_comments_here_iff. Qed.

End IdFacts.

(** C6.  [parse_rss] turns every entry into a post with [parse_entry], and
    the post id follows a fixed precedence: the id of the leftmost
    [t3_<id>] in the opaque id when there is one; else the id of the
    leftmost [/comments/<id>/] in the URL; else the last 8 characters of
    the opaque id when it is not empty; else the time string.  An opaque
    id [t3_abc123] gives [abc123] whatever the links of the entry are. *)
Theorem post_id_precedence :
  (forall (ET_entries : string -> option (list Feed.Entry)) (time_str : nat -> string)
          (xml_text : string) (entries : list Feed.Entry) (i : nat) (e : Feed.Entry),
     ET_entries (Feed.strip_junk ["<?xml"; "<feed"; "<rss"] xml_text) = Some entries ->
     entries !! i = Some e ->
     Feed.parse_rss ET_entries time_str xml_text !! i =
       Some (Feed.parse_entry (time_str i) e)) /\
  (forall (time_str : string) (e : Feed.Entry),
     let id_raw := PyStr.strip (default EmptyString (Feed.e_id e)) in
     let url := Feed.entry_url e in
     let post_id := p_id (Feed.parse_entry time_str e) in
     ((exists g, Spec.t3_pattern id_raw g) \/ Spec.no_t3_pattern id_raw) /\
     ((exists g, Spec.comments_pattern url g) \/ Spec.no_comments_pattern url) /\
     (forall g, Spec.t3_pattern id_raw g -> post_id = g) /\
     (Spec.no_t3_pattern id_raw ->
      forall g, Spec.comments_pattern url g -> post_id = g) /\
     (Spec.no_t3_pattern id_raw -> Spec.no_comments_pattern url ->
      id_raw <> EmptyString ->
      post_id = PyStr.last_chars 8 id_raw /\
      exists pre, id_raw = pre +:+ post_id /\
                  String.length post_id = Nat.min 8 (String.length id_raw)) /\
     (Spec.no_t3_pattern id_raw -> Spec.no_comments_pattern url ->
      id_raw = EmptyString -> post_id = time_str)) /\
  (forall (time_str : string) (e : Feed.Entry),
     Feed.e_id e = Some "t3_abc123" ->
     p_id (Feed.parse_entry time_str e) = "abc123").
Proof.
  split; [|split].
  - intros ET_entries time_str xml_text entries i e HET Hi.
    unfold Feed.parse_rss. rewrite HET, list_lookup_imap, Hi. reflexivity.
  - intros time_str e id_raw url post_id.
    assert (Hid : post_id = Feed.extract_post_id id_raw url time_str) by reflexivity.
    unfold Feed.extract_post_id, Feed.id_match in Hid.
    split.
    { destruct (Re.search_t3 id_raw) as [g|] eqn:E.
      - left. exists g. by apply search_t3_leftmost.
      - right. by apply search_t3_absent. }
    split.
    { destruct (Re.search_comments url) as [g|] eqn:E.
      - left. exists g. by apply search_comments_leftmost.
      - right. by apply search_comments_absent. }
    split.
    { intros g Hg%search_t3_leftmost. by rewrite Hg in Hid. }
    split.
    { intros Hno%search_t3_absent g Hg%search_comments_leftmost.
      by rewrite Hno, Hg in Hid. }
    split.
    { intros Hno%search_t3_absent Hnc%search_comments_absent Hne.
      rewrite Hno, Hnc in Hid.
      destruct (last_chars_suffix 8 id_raw) as (pre & Hs & Hl).
      assert (Hlast : PyStr.last_chars 8 id_raw <> EmptyString).
      { intros Habs. rewrite Habs in Hl. simpl in Hl.
        destruct id_raw; [done|]. simpl in Hl. lia. }
      assert (post_id = PyStr.last_chars 8 id_raw) as Heq.
      { rewrite Hid. unfold PyStr.or_else. by destruct (PyStr.last_chars 8 id_raw). }
      split; [exact Heq|]. exists pre. by rewrite Heq. }
    intros Hno%search_t3_absent Hnc%search_comments_absent Hempty.
    rewrite Hno, Hnc, Hempty in Hid. exact Hid.
  - intros time_str e He. unfold Feed.parse_entry. cbn [p_id]. rewrite He. reflexivity.
Qed.

(** The entry of the example, with another id in its link. *)
Lemma post_id_precedence_witness :
  p_id (Feed.parse_entry "1704071200.0"
          (Feed.mkEntry (Some "t3_abc123") (Some "Pachanoi") None None None
             [Feed.mkLink (Some "alternate")
                (Some "https://www.reddit.com/r/sanpedrocactusforsale/comments/zzz999/pachanoi/") 0]))
  = "abc123".
Proof.
  apply (proj1 (proj2 (proj2 (proj1 (proj2 post_id_precedence) _ _)))).
  apply search_t3_leftmost. reflexivity.
Defined.

(** ** The state file *)

Lemma Qltb_lt x y : Qltb x y = true <-> (x < y)%Q.
Proof.
  unfold Qltb. rewrite negb_true_iff. split.
  - intros H. apply Qnot_le_lt. intros Hle%Qle_bool_iff. congruence.
  - intros H. destruct (Qle_bool y x) eqn:E; [|done].
    apply Qle_bool_iff in E. by apply Qlt_not_le in H.
Qed.

Lemma Qltb_ge x y : Qltb x y = false <-> (y <= x)%Q.
Proof. unfold Qltb. rewrite negb_false_iff. apply Qle_bool_iff. Qed.

Lemma cutoff_active_Some cutoff c :
  cutoff_active cutoff = Some c <-> cutoff = Some c /\ ~ (c == 0)%Q.
Proof.
  unfold cutoff_active. destruct cutoff as [c0|]; [|split; [done|by intros [? _]]].
  destruct (Qeq_bool c0 0) eqn:E.
  - apply Qeq_bool_iff in E. split; [done|]. by intros [[= ->] ?].
  - apply Qeq_bool_neq in E. split; [by intros [= ->]|by intros [[= ->] _]].
Qed.

Lemma py_last_length {A} n (l : list A) : length (py_last n l) <= n.
Proof. unfold py_last. rewrite length_drop. lia. Qed.

Lemma py_last_short {A} n (l : list A) : length l <= n -> py_last n l = l.
Proof. unfold py_last. intros H. replace (length l - n) with 0 by lia. apply drop_0. Qed.

Lemma truncate_ids_length seen : length (truncate_ids seen) <= 2000.
Proof. apply py_last_length. Qed.

Lemma truncate_ids_elem seen x : x ∈ truncate_ids seen -> x ∈ seen.
Proof.
  unfold truncate_ids, py_last. intros H. apply elem_of_elements.
  rewrite <- (take_drop (length (elements seen) - 2000) (elements seen)).
  apply elem_of_app. by right.
Qed.

Lemma truncate_ids_small seen : size seen <= 2000 -> truncate_ids seen = elements seen.
Proof. intros H. by apply py_last_short. Qed.

Lemma mark_seen_elem seen posts x :
  x ∈ mark_seen seen posts <-> x ∈ seen \/ exists p, p ∈ posts /\ p_id p = x.
Proof.
  unfold mark_seen. revert seen. induction posts as [|q posts IH]; intros seen; simpl.
  - split; [by left|]. intros [H|(p & Hp & _)]; [done|]. by apply not_elem_of_nil in Hp.
  - rewrite IH. rewrite elem_of_union, elem_of_singleton. split.
    + intros [[->|H]|(p & Hp & He)].
      * right. exists q. split; [constructor|done].
      * by left.
      * right. exists p. split; [by constructor|done].
    + intros [H|(p & Hp & He)]; [left; by right|].
      apply elem_of_cons in Hp as [->|Hp]; [left; by left|].
      right. by exists p.
Qed.

Lemma list_last_default {A} (l : list A) (d x : A) : last l = Some x -> List.last l d = x.
Proof.
  revert d. induction l as [|a l IH]; intros d H; [done|].
  destruct l as [|b l]; [by inversion H|].
  change (List.last (a :: b :: l) d) with (List.last (b :: l) d).
  apply IH. exact H.
Qed.

Lemma add_all_list_to_set (seen : gset string) (ins : list string) :
  Spec.add_all seen ins = list_to_set ins ∪ seen.
Proof.
  unfold Spec.add_all. revert seen. induction ins as [|x ins IH]; intros seen; simpl.
  - by rewrite (left_id_L ∅ (∪)).
  - by rewrite IH, (assoc_L (∪)), (comm_L (∪) (list_to_set ins)).
Qed.

Lemma add_all_perm (seen : gset string) (ins1 ins2 : list string) :
  ins1 ≡ₚ ins2 -> Spec.add_all seen ins1 = Spec.add_all seen ins2.
Proof.
  intros H. rewrite !add_all_list_to_set.
  by rewrite (list_to_set_perm_L ins1 ins2 H).
Qed.

Lemma ids_from_length j n : length (Scenario.ids_from j n) = n.
Proof. unfold Scenario.ids_from. by rewrite length_map, length_seq. Qed.

Lemma ids_length n : length (Scenario.ids n) = n.
Proof. apply ids_from_length. Qed.

(** The ids carry their numbers, so they differ from each other. *)
Lemma ids_2025_numbers :
  Scenario.id_number <$> Scenario.ids 2025 = (fun i => Some (Z.of_nat i)) <$> seq 0 2025.
Proof. vm_compute. reflexivity. Qed.

Lemma ids_2025_NoDup : NoDup (Scenario.ids 2025).
Proof.
  apply (NoDup_fmap_1 Scenario.id_number). rewrite ids_2025_numbers.
  apply NoDup_fmap_2; [|apply NoDup_seq].
  intros i j [= H]. lia.
Qed.

Lemma ids_2001_NoDup : NoDup (Scenario.ids 2001).
Proof.
  apply (sublist_NoDup _ (Scenario.ids 2025)); [apply ids_2025_NoDup|].
  replace (Scenario.ids 2001) with (take 2001 (Scenario.ids 2025)); [apply sublist_take|].
  unfold Scenario.ids, Scenario.ids_from. rewrite <- fmap_take, take_seq. reflexivity.
Qed.

Lemma size_ids_2001 : size (Spec.add_all ∅ (Scenario.ids 2001)) = 2001.
Proof.
  rewrite add_all_list_to_set, (right_id_L ∅ (∪)).
  rewrite size_list_to_set by apply ids_2001_NoDup. apply ids_length.
Qed.

(** C3, amended.  When the seen set holds more than 2000 ids, save keeps
    exactly 2000 of them, the last 2000 in the iteration order of the set,
    and writes only those; the ids it drops are the first ones of that
    order.  The iteration order of a set is not the order of insertion. *)
Theorem save_keeps_tail_of_iteration_order :
  forall seen : gset string,
    2000 < size seen ->
    exists evicted,
      elements seen = (evicted ++ truncate_ids seen)%list /\
      length evicted = size seen - 2000 /\
      length (truncate_ids seen) = 2000 /\
      NoDup (truncate_ids seen) /\
      (forall x, x ∈ truncate_ids seen -> x ∈ seen) /\
      save_seen_ids seen = FileIds (truncate_ids seen).
Proof.
  intros seen Hsize. unfold size, set_size in Hsize. cbn in Hsize.
  exists (take (length (elements seen) - 2000) (elements seen)).
  assert (Hsplit : elements seen =
                   (take (length (elements seen) - 2000) (elements seen)
                    ++ truncate_ids seen)%list).
  { unfold truncate_ids, py_last. by rewrite take_drop. }
  split; [exact Hsplit|]. split.
  { rewrite length_take. unfold size, set_size. cbn. lia. }
  split.
  { unfold truncate_ids, py_last. rewrite length_drop. lia. }
  split.
  { pose proof (NoDup_elements seen) as Hnd. rewrite Hsplit in Hnd.
    by apply NoDup_app in Hnd as (_ & _ & Hnd). }
  split; [apply truncate_ids_elem|reflexivity].
Qed.

(** A set of 2001 ids. *)
Lemma save_keeps_tail_of_iteration_order_witness :
  exists evicted,
    elements (Spec.add_all ∅ (Scenario.ids 2001)) =
      (evicted ++ truncate_ids (Spec.add_all ∅ (Scenario.ids 2001)))%list /\
    length evicted = 1.
Proof.
  destruct (save_keeps_tail_of_iteration_order (Spec.add_all ∅ (Scenario.ids 2001)))
    as (evicted & He & Hl & _).
  - rewrite size_ids_2001. lia.
  - exists evicted. split; [exact He|]. rewrite Hl, size_ids_2001. reflexivity.
Defined.

(** C3 as stated fails.  The same 2001 ids are inserted into an empty set
    once with [a0] first and once with [a0] last.  The set is the same
    both times, and so is what save keeps of it; but [a0] is among the
    2000 most recent in the second case and not in the first.  Keeping the
    most recent 2000 cannot hold in both cases. *)
Lemma eviction_ignores_insertion_order :
  ~ (Spec.keeps_most_recent (Scenario.ids 2001) /\
     Spec.keeps_most_recent (reverse (Scenario.ids 2001))).
Proof.
  intros [Hfirst Hlast].
  pose proof (add_all_perm ∅ _ _ (reverse_Permutation (Scenario.ids 2001))) as Hsame.
  assert (Hin : "a0" ∈ py_last 2000 (reverse (Scenario.ids 2001))).
  { unfold py_last. rewrite length_reverse, ids_length.
    change (Scenario.ids 2001) with ("a0" :: Scenario.ids_from 1 2000).
    rewrite reverse_cons. apply list_elem_of_lookup_2 with 1999.
    rewrite lookup_drop, lookup_app_r; rewrite length_reverse, ids_from_length; [|lia].
    reflexivity. }
  apply (proj2 (Hlast "a0")) in Hin. rewrite Hsame in Hin.
  apply (proj1 (Hfirst "a0")) in Hin.
  unfold py_last in Hin. rewrite ids_length in Hin.
  pose proof ids_2001_NoDup as Hnd.
  change (Scenario.ids 2001) with ("a0" :: Scenario.ids_from 1 2000) in Hin, Hnd.
  apply NoDup_cons_1_1 in Hnd. apply Hnd. exact Hin.
Qed.

Lemma observable_write_text (old : Persist.Disk) (data : string) :
  Persist.observable (Persist.write_text data) old =
    [old; Persist.Content EmptyString; Persist.Content data; Persist.Content data] /\
  Persist.run_ops (Persist.write_text data) old = Persist.Content data.
Proof. split; by destruct old. Qed.

(** C9, amended.  Saving overwrites the state file in place: the file is
    first emptied, then the whole new id list is written.  Between the two
    the file is empty, so neither the old state nor the new one is there;
    once the save has run to its end the file holds the complete new id
    list. *)
Theorem save_overwrites_in_place :
  forall (old : Persist.Disk) (seen : gset string),
    let new := Persist.json_dumps (truncate_ids seen) in
    Persist.observable (Persist.save_ops seen) old =
      [old; Persist.Content EmptyString; Persist.Content new; Persist.Content new] /\
    Persist.run_ops (Persist.save_ops seen) old = Persist.Content new.
Proof. intros old seen new. apply observable_write_text. Qed.

(** C9 as stated fails: the file holds one id and the set to save holds a
    second one; while saving, the file is empty. *)
Lemma save_is_not_atomic :
  ~ Spec.atomic_save (Persist.Content (Persist.json_dumps ["abc123"]))
                     (Persist.save_ops (Spec.add_all ∅ ["abc123"; "def456"])).
Proof.
  intros H. destruct (H (Persist.Content EmptyString)) as [Hd|Hd].
  - unfold Persist.save_ops.
    rewrite (proj1 (observable_write_text _ _)).
    apply elem_of_cons. right. constructor.
  - vm_compute in Hd. discriminate Hd.
  - vm_compute in Hd. discriminate Hd.
Qed.

(** ** The check cycle *)

Lemma is_some_Some {A} (o : option A) : Spec.is_some o = true -> exists x, o = Some x.
Proof. destruct o as [x|]; [by exists x|done]. Qed.

Section CheckFacts.
Context {World : Type}.
Variable fetch_posts : option string -> World -> list Post * World.
Variable fetch_comment_counts : list string -> World -> gmap string Z * World.
Variable iso_timestamp : string -> option Q.
Variable KEYWORDS : list string.
Variable FILTER_SOLD : bool.

#[local] Abbreviation paginate' := (paginate fetch_posts iso_timestamp).
#[local] Abbreviation check' := (check fetch_posts fetch_comment_counts iso_timestamp KEYWORDS FILTER_SOLD).
#[local] Abbreviation in_window' := (in_window iso_timestamp).
#[local] Abbreviation published_time' := (published_time iso_timestamp).
#[local] Abbreviation oldest_time' := (oldest_time iso_timestamp).

Lemma new_posts_of_elem seen posts p :
  p ∈ new_posts_of seen posts <-> (p_id p ∉ seen) /\ (p ∈ posts).
Proof. unfold new_posts_of. by rewrite list_elem_of_filter. Qed.

Lemma in_window_elem c posts p :
  p ∈ in_window' c posts <-> within iso_timestamp c p = true /\ (p ∈ posts).
Proof. unfold in_window. by rewrite list_elem_of_filter. Qed.

(** One turn of the loop, case by case. *)

Lemma paginate_empty fuel seen cutoff after w w1 acc reqs :
  fetch_posts after w = ([], w1) ->
  paginate' (S fuel) seen cutoff after w acc reqs = Some (acc, (reqs ++ [after])%list, w1).
Proof. intros H. simpl. by rewrite H. Qed.

Lemma paginate_single fuel seen cutoff after w posts w1 acc reqs :
  fetch_posts after w = (posts, w1) -> posts <> [] ->
  cutoff_active cutoff = None ->
  paginate' (S fuel) seen cutoff after w acc reqs =
    Some ((acc ++ new_posts_of seen posts)%list, (reqs ++ [after])%list, w1).
Proof. intros H Hne Hc. simpl. rewrite H, Hc. by destruct posts. Qed.

Lemma paginate_stop fuel seen cutoff c after w posts oldest w1 acc reqs :
  fetch_posts after w = (posts, w1) -> last posts = Some oldest ->
  cutoff_active cutoff = Some c ->
  (oldest_time' oldest < c)%Q \/ length posts < 25 ->
  paginate' (S fuel) seen cutoff after w acc reqs =
    Some ((acc ++ in_window' c (new_posts_of seen posts))%list, (reqs ++ [after])%list, w1).
Proof.
  intros H Hl Hc Hstop. simpl. rewrite H, Hc.
  destruct posts as [|first rest]; [done|].
  rewrite (list_last_default _ first oldest Hl).
  destruct Hstop as [Ht|Hn].
  - apply Qltb_lt in Ht. by rewrite Ht.
  - apply Nat.ltb_lt in Hn. rewrite Hn. by rewrite orb_true_r.
Qed.

Lemma paginate_continue fuel seen cutoff c after w posts oldest w1 acc reqs :
  fetch_posts after w = (posts, w1) -> last posts = Some oldest ->
  cutoff_active cutoff = Some c ->
  (c <= oldest_time' oldest)%Q -> 25 <= length posts ->
  paginate' (S fuel) seen cutoff after w acc reqs =
    paginate' fuel seen cutoff (Some ("t3_" +:+ p_id oldest)) w1
      (acc ++ in_window' c (new_posts_of seen posts))%list (reqs ++ [after])%list.
Proof.
  intros H Hl Hc Ht Hn. simpl. rewrite H, Hc.
  destruct posts as [|first rest]; [done|].
  rewrite (list_last_default _ first oldest Hl).
  apply Qltb_ge in Ht. rewrite Ht.
  assert ((length (first :: rest) <? 25)%nat = false) as -> by (apply Nat.ltb_ge; lia).
  reflexivity.
Qed.

(** Whatever the loop accumulates is new. *)
Lemma paginate_new fuel seen cutoff after w acc reqs all reqs' w' :
  paginate' fuel seen cutoff after w acc reqs = Some (all, reqs', w') ->
  forall p, p ∈ all -> p ∈ acc \/ p_id p ∉ seen.
Proof.
  revert after w acc reqs. induction fuel as [|fuel IH]; intros after w acc reqs H p Hp; [done|].
  simpl in H. destruct (fetch_posts after w) as [posts w1].
  destruct posts as [|first rest]; [inversion H; subst; by left|].
  destruct (cutoff_active cutoff) as [c|].
  - match type of H with
    | (if ?b then _ else _) = _ => destruct b
    end.
    + inversion H; subst. apply elem_of_app in Hp as [Hp|Hp]; [by left|right].
      apply in_window_elem in Hp as [_ Hp]. by apply new_posts_of_elem in Hp as [Hp _].
    + destruct (IH _ _ _ _ H p Hp) as [Hq|Hq]; [|by right].
      apply elem_of_app in Hq as [Hq|Hq]; [by left|right].
      apply in_window_elem in Hq as [_ Hq]. by apply new_posts_of_elem in Hq as [Hq _].
  - inversion H; subst. apply elem_of_app in Hp as [Hp|Hp]; [by left|right].
    by apply new_posts_of_elem in Hp as [Hp _].
Qed.

Lemma select_matches_elem posts m :
  m ∈ select_matches KEYWORDS FILTER_SOLD posts ->
  exists p, p ∈ posts /\ p_id m = p_id p /\ is_sold FILTER_SOLD p = false /\
            match_keywords KEYWORDS p <> [] /\
            p_matched_kws m = Some (match_keywords KEYWORDS p).
Proof.
  unfold select_matches. intros (p & Hp & Hm)%list_elem_of_omap. exists p.
  split; [done|]. destruct (is_sold FILTER_SOLD p); [done|].
  destruct (match_keywords KEYWORDS p) as [|kw kws] eqn:E; [done|].
  inversion Hm; subst m. simpl. done.
Qed.

Lemma enrich_elem counts matches m :
  m ∈ enrich counts matches -> exists m0, m0 ∈ matches /\ p_id m = p_id m0.
Proof.
  unfold enrich. intros (m0 & -> & H)%list_elem_of_fmap. by exists m0.
Qed.

(** What a completed cycle consists of. *)
Lemma check_Some fuel lookback_hours now_utc file w c :
  check' fuel lookback_hours now_utc file w = Some c ->
  exists all reqs w1,
    paginate' fuel (load_seen_ids file) (compute_cutoff now_utc lookback_hours)
              None w [] [] = Some (all, reqs, w1) /\
    c_loaded c = load_seen_ids file /\
    c_all_new_posts c = all /\
    c_requests c = (reqs ++ [None])%list /\
    c_all_fetched c = (fetch_posts None w1).1 /\
    c_seen c = mark_seen (mark_seen (load_seen_ids file) (c_all_fetched c)) all /\
    c_file c = save_seen_ids (c_seen c) /\
    forall m, m ∈ c_matches c ->
              exists m0, m0 ∈ select_matches KEYWORDS FILTER_SOLD all /\ p_id m = p_id m0.
Proof.
  unfold check. intros H.
  destruct (paginate' _ _ _ _ _ _ _) as [[[all reqs] w1]|] eqn:Ep; [|done].
  exists all, reqs, w1. split; [done|].
  destruct (fetch_posts None w1) as [front w2] eqn:Ef.
  destruct (select_matches KEYWORDS FILTER_SOLD all) as [|m0 ms] eqn:Em.
  - inversion H; subst c; simpl. repeat (split; [done|]).
    intros m Hm. by apply not_elem_of_nil in Hm.
  - destruct (fetch_comment_counts _ w2) as [counts w3].
    inversion H; subst c.
    cbn [c_loaded c_all_new_posts c_requests c_all_fetched c_seen c_file c_matches fst].
    repeat (split; [done|]).
    intros m Hm. exact (enrich_elem counts (m0 :: ms) m Hm).
Qed.

Lemma check_complete fuel lookback_hours now_utc file w all reqs w1 :
  paginate' fuel (load_seen_ids file) (compute_cutoff now_utc lookback_hours)
            None w [] [] = Some (all, reqs, w1) ->
  exists c, check' fuel lookback_hours now_utc file w = Some c.
Proof.
  intros H. unfold check. rewrite H.
  destruct (fetch_posts None w1) as [front w2].
  destruct (select_matches KEYWORDS FILTER_SOLD all) as [|m0 ms]; [by eexists|].
  destruct (fetch_comment_counts _ w2) as [counts w3]. by eexists.
Qed.

(** Without a lookback the loop takes one page and the cycle completes. *)
Lemma check_single_page_completes fuel lookback_hours now_utc file w :
  cutoff_active (compute_cutoff now_utc lookback_hours) = None ->
  exists c, check' (S fuel) lookback_hours now_utc file w = Some c /\
            c_requests c = [None; None].
Proof.
  intros Hoff. destruct (fetch_posts None w) as [posts w1] eqn:Hf.
  assert (exists all, paginate' (S fuel) (load_seen_ids file)
                        (compute_cutoff now_utc lookback_hours) None w [] [] =
                      Some (all, [None], w1)) as [all Hp].
  { destruct posts as [|p posts].
    - exists []. by apply paginate_empty.
    - exists ([] ++ new_posts_of (load_seen_ids file) (p :: posts))%list.
      exact (paginate_single fuel _ _ None w (p :: posts) w1 [] [] Hf ltac:(done) Hoff). }
  destruct (check_complete _ _ _ _ _ _ _ _ Hp) as [c Hc]. exists c. split; [done|].
  destruct (check_Some _ _ _ _ _ _ Hc) as (all' & reqs & w1' & Hp' & _ & _ & Hreq & _).
  rewrite Hp in Hp'. inversion Hp'; subst. exact Hreq.
Qed.

End CheckFacts.

(** ** Times and the lookback window *)

Lemma decreasing_front (ta tb : list Q) (t_last : Q) :
  Spec.decreasing (ta ++ tb)%list -> last ta = Some t_last ->
  forall t, t ∈ ta -> (t_last <= t)%Q.
Proof.
  intros Hdec Hl t (i & Hi)%list_elem_of_lookup_1.
  rewrite last_lookup in Hl.
  pose proof (lookup_lt_Some _ _ _ Hi) as Hlt.
  destruct (decide (i = Init.Nat.pred (length ta))) as [->|Hne].
  - rewrite Hl in Hi. inversion Hi. apply Qle_refl.
  - apply Qlt_le_weak.
    apply (Hdec i (Init.Nat.pred (length ta))); [| |lia].
    + rewrite lookup_app_l; [done|lia].
    + rewrite lookup_app_l; [done|lia].
Qed.

Lemma decreasing_back (ta tb : list Q) (t_first : Q) :
  Spec.decreasing (ta ++ tb)%list -> head tb = Some t_first ->
  forall t, t ∈ tb -> (t <= t_first)%Q.
Proof.
  intros Hdec Hh t (j & Hj)%list_elem_of_lookup_1.
  rewrite head_lookup in Hh.
  destruct j as [|j].
  - rewrite Hh in Hj. inversion Hj. apply Qle_refl.
  - apply Qlt_le_weak.
    apply (Hdec (length ta + 0) (length ta + S j)); [| |lia].
    + rewrite lookup_app_r by lia. by replace (length ta + 0 - length ta) with 0 by lia.
    + rewrite lookup_app_r by lia. by replace (length ta + S j - length ta) with (S j) by lia.
Qed.

Section Window.
Variable iso_timestamp : string -> option Q.

Lemma in_window_all c posts :
  (forall p, p ∈ posts -> within iso_timestamp c p = true) ->
  in_window iso_timestamp c posts = posts.
Proof.
  unfold in_window. induction posts as [|q posts IH]; intros H; [done|].
  rewrite filter_cons_True by (apply H; constructor).
  f_equal. apply IH. intros p Hp. apply H. by constructor.
Qed.

Lemma in_window_none c posts :
  (forall p, p ∈ posts -> within iso_timestamp c p = false) ->
  in_window iso_timestamp c posts = [].
Proof.
  unfold in_window. induction posts as [|q posts IH]; intros H; [done|].
  rewrite filter_cons_False.
  - apply IH. intros p Hp. apply H. by constructor.
  - rewrite (H q) by constructor. done.
Qed.

Lemma within_timed c p t :
  published_time iso_timestamp p = Some t ->
  within iso_timestamp c p = true <-> (c <= t)%Q.
Proof. unfold within. intros ->. apply Qle_bool_iff. Qed.

Lemma within_untimed c p :
  published_time iso_timestamp p = None -> within iso_timestamp c p = true.
Proof. unfold within. by intros ->. Qed.

Lemma timed_page page times :
  Forall2 (fun p t => published_time iso_timestamp p = Some t) page times ->
  forall p, p ∈ page -> exists t, t ∈ times /\ published_time iso_timestamp p = Some t.
Proof.
  intros HF p (i & Hi)%list_elem_of_lookup_1.
  destruct (Forall2_lookup_l _ _ _ _ _ HF Hi) as (t & Ht & Hp).
  exists t. split; [|done]. by apply list_elem_of_lookup_2 in Ht.
Qed.

End Window.

Lemma falling_decreasing times : Scenario.falling times = true -> Spec.decreasing times.
Proof.
  induction times as [|a rest IH]; intros Hf i j x y Hi Hj Hlt.
  - by rewrite lookup_nil in Hi.
  - assert (Hrest : Scenario.falling rest = true).
    { destruct rest as [|b rest]; [done|]. cbn [Scenario.falling] in Hf.
      by apply andb_true_iff in Hf as [_ Hf]. }
    destruct j as [|j]; [lia|]. cbn in Hj.
    destruct i as [|i].
    + cbn in Hi. inversion Hi; subst x. clear Hi.
      destruct rest as [|b rest]; [done|].
      cbn [Scenario.falling] in Hf. apply andb_true_iff in Hf as [Hba _].
      apply Qltb_lt in Hba.
      destruct j as [|j].
      * cbn in Hj. by inversion Hj; subst y.
      * apply Qlt_trans with b; [|done].
        apply (IH Hrest 0 (S j)); [done|done|lia].
    + cbn in Hi. apply (IH Hrest i j); [done|done|lia].
Qed.

(** ** The cycle and the seen-set *)

(** C1.  Whatever the lookback, an id of the seen-set loaded at the start
    of a cycle is the id of none of the new posts the cycle accumulates
    and of none of its matches. *)
Theorem seen_entries_never_reappear :
  forall (World : Type)
         (fetch_posts : option string -> World -> list Post * World)
         (fetch_comment_counts : list string -> World -> gmap string Z * World)
         (iso_timestamp : string -> option Q)
         (KEYWORDS : list string) (FILTER_SOLD : bool)
         (fuel : nat) (lookback_hours now_utc : Q) (file : StateFile) (w : World)
         (c : Cycle World),
    check fetch_posts fetch_comment_counts iso_timestamp KEYWORDS FILTER_SOLD
          fuel lookback_hours now_utc file w = Some c ->
    forall id, id ∈ load_seen_ids file ->
      (id ∉ (p_id <$> c_all_new_posts c)) /\ (id ∉ (p_id <$> c_matches c)).
Proof.
  intros World fetch_posts fetch_comment_counts iso_timestamp KEYWORDS FILTER_SOLD
         fuel lookback_hours now_utc file w c Hc id Hid.
  destruct (check_Some _ _ _ _ _ _ _ _ _ _ _ Hc)
    as (all & reqs & w1 & Hp & _ & Hall & _ & _ & _ & _ & Hm).
  assert (Hnew : forall p, p ∈ all -> p_id p ∉ load_seen_ids file).
  { intros p Hin. destruct (paginate_new _ _ _ _ _ _ _ _ _ _ _ _ Hp p Hin) as [H|H]; [|done].
    by apply not_elem_of_nil in H. }
  split.
  - rewrite Hall. intros (p & -> & Hin)%list_elem_of_fmap. by apply (Hnew p).
  - intros (m & -> & Hin)%list_elem_of_fmap.
    destruct (Hm m Hin) as (m0 & Hm0 & Heq).
    destruct (select_matches_elem _ _ _ _ Hm0) as (p & Hin' & Hid' & _).
    apply (Hnew p Hin'). by rewrite <- Hid', <- Heq.
Qed.

(** A front page of 25 posts, two of them seen before. *)
Lemma seen_entries_never_reappear_witness :
  exists c,
    Scenario.run (Scenario.feed 30) 5 0 Scenario.now_utc (FileIds ["a3"; "a7"]) = Some c /\
    ("a3" ∉ (p_id <$> c_all_new_posts c)) /\ ("a3" ∉ (p_id <$> c_matches c)).
Proof.
  destruct (is_some_Some
              (Scenario.run (Scenario.feed 30) 5 0 Scenario.now_utc (FileIds ["a3"; "a7"])))
    as [c Hc]; [vm_compute; reflexivity|].
  exists c. split; [exact Hc|].
  apply (seen_entries_never_reappear unit (Scenario.serve (Scenario.feed 30))
           Scenario.no_counts Scenario.iso_utc default_KEYWORDS default_FILTER_SOLD
           5 0%Q Scenario.now_utc (FileIds ["a3"; "a7"]) tt c Hc).
  cbn [load_seen_ids]. apply elem_of_list_to_set. constructor.
Defined.

Lemma check_file_bound {World : Type}
    (fetch_posts : option string -> World -> list Post * World)
    (fetch_comment_counts : list string -> World -> gmap string Z * World)
    (iso_timestamp : string -> option Q) (KEYWORDS : list string) (FILTER_SOLD : bool)
    fuel lookback_hours now_utc file w c :
  check fetch_posts fetch_comment_counts iso_timestamp KEYWORDS FILTER_SOLD
        fuel lookback_hours now_utc file w = Some c ->
  exists ids, c_file c = FileIds ids /\ length ids <= 2000.
Proof.
  intros Hc.
  destruct (check_Some _ _ _ _ _ _ _ _ _ _ _ Hc)
    as (all & reqs & w1 & _ & _ & _ & _ & _ & _ & Hf & _).
  exists (truncate_ids (c_seen c)). split; [exact Hf|apply truncate_ids_length].
Qed.

(** C2.  [save_seen_ids] writes the last 2000 entries of the listed set,
    so at most 2000 ids, whatever the size of the set; and after one or
    more cycles of the watch loop the state file holds at most 2000 ids. *)
Theorem persisted_ids_at_most_2000 :
  (forall seen : gset string,
     save_seen_ids seen = FileIds (py_last 2000 (elements seen)) /\
     length (persisted (save_seen_ids seen)) <= 2000) /\
  (forall (World : Type)
          (fetch_posts : option string -> World -> list Post * World)
          (fetch_comment_counts : list string -> World -> gmap string Z * World)
          (iso_timestamp : string -> option Q)
          (KEYWORDS : list string) (FILTER_SOLD : bool)
          (fuel : nat) (lookback : Q) (first_run : bool) (nows : list Q)
          (file file' : StateFile) (w w' : World),
     nows <> [] ->
     watch fetch_posts fetch_comment_counts iso_timestamp KEYWORDS FILTER_SOLD
           fuel lookback first_run nows file w = Some (file', w') ->
     exists ids, file' = FileIds ids /\ length ids <= 2000).
Proof.
  split.
  - intros seen. split; [reflexivity|]. apply truncate_ids_length.
  - intros World fetch_posts fetch_comment_counts iso_timestamp KEYWORDS FILTER_SOLD
           fuel lookback first_run nows.
    revert first_run. induction nows as [|now_utc rest IH];
      intros first_run file file' w w' Hne H; [done|].
    cbn [watch] in H.
    destruct (check _ _ _ _ _ _ _ _ _ _) as [c|] eqn:Hc; [|done].
    destruct rest as [|now2 rest].
    + cbn [watch] in H. inversion H; subst file' w'.
      exact (check_file_bound _ _ _ _ _ _ _ _ _ _ _ Hc).
    + by apply (IH false (c_file c) file' (c_world c) w').
Qed.

(** Two cycles, five minutes apart, the first with a lookback of one hour. *)
Lemma persisted_ids_at_most_2000_witness :
  exists file' w',
    watch (Scenario.serve (Scenario.feed 30)) Scenario.no_counts Scenario.iso_utc
          default_KEYWORDS default_FILTER_SOLD 5 1%Q true
          [Scenario.now_utc; (Scenario.now_utc + 300)%Q] FileMissing tt = Some (file', w') /\
    exists ids, file' = FileIds ids /\ length ids <= 2000.
Proof.
  destruct (is_some_Some
              (watch (Scenario.serve (Scenario.feed 30)) Scenario.no_counts Scenario.iso_utc
                 default_KEYWORDS default_FILTER_SOLD 5 1%Q true
                 [Scenario.now_utc; (Scenario.now_utc + 300)%Q] FileMissing tt))
    as [[file' w'] H]; [vm_compute; reflexivity|].
  exists file', w'. split; [exact H|].
  apply (proj2 persisted_ids_at_most_2000 unit (Scenario.serve (Scenario.feed 30))
           Scenario.no_counts Scenario.iso_utc default_KEYWORDS default_FILTER_SOLD
           5 1%Q true [Scenario.now_utc; (Scenario.now_utc + 300)%Q] FileMissing file' tt w').
  - discriminate.
  - exact H.
Defined.

(** C4, amended.  A completed cycle ends with a request for the first
    page, made whatever the lookback; every id of that page and every id
    of an accumulated new post is in the seen-set handed to
    [save_seen_ids]; and all of them are in the state file whenever that
    set holds at most 2000 ids. *)
Theorem first_page_and_new_ids_marked :
  forall (World : Type)
         (fetch_posts : option string -> World -> list Post * World)
         (fetch_comment_counts : list string -> World -> gmap string Z * World)
         (iso_timestamp : string -> option Q)
         (KEYWORDS : list string) (FILTER_SOLD : bool)
         (fuel : nat) (lookback_hours now_utc : Q) (file : StateFile) (w : World)
         (c : Cycle World),
    check fetch_posts fetch_comment_counts iso_timestamp KEYWORDS FILTER_SOLD
          fuel lookback_hours now_utc file w = Some c ->
    (exists reqs w1,
       c_requests c = (reqs ++ [None])%list /\
       c_all_fetched c = (fetch_posts None w1).1) /\
    c_file c = save_seen_ids (c_seen c) /\
    (forall p, p ∈ c_all_fetched c \/ p ∈ c_all_new_posts c -> p_id p ∈ c_seen c) /\
    (size (c_seen c) <= 2000 ->
     forall p, p ∈ c_all_fetched c \/ p ∈ c_all_new_posts c ->
               p_id p ∈ persisted (c_file c)).
Proof.
  intros World fetch_posts fetch_comment_counts iso_timestamp KEYWORDS FILTER_SOLD
         fuel lookback_hours now_utc file w c Hc.
  destruct (check_Some _ _ _ _ _ _ _ _ _ _ _ Hc)
    as (all & reqs & w1 & Hp & _ & Hall & Hreq & Hfetched & Hseen & Hfile & _).
  assert (Hin : forall p, p ∈ c_all_fetched c \/ p ∈ c_all_new_posts c -> p_id p ∈ c_seen c).
  { intros p Hp'. rewrite Hseen. apply mark_seen_elem. destruct Hp' as [Hf|Hn].
    - left. apply mark_seen_elem. right. by exists p.
    - right. exists p. by rewrite <- Hall. }
  split; [by exists reqs, w1|]. split; [done|]. split; [done|].
  intros Hsize p Hp'. rewrite Hfile. cbn [persisted save_seen_ids].
  rewrite (truncate_ids_small _ Hsize). apply elem_of_elements. by apply Hin.
Qed.

(** The cycle of the first witness. *)
Lemma first_page_and_new_ids_marked_witness :
  exists c,
    Scenario.run (Scenario.feed 30) 5 0 Scenario.now_utc (FileIds ["a3"; "a7"]) = Some c /\
    c_file c = save_seen_ids (c_seen c) /\
    (forall p, p ∈ c_all_fetched c \/ p ∈ c_all_new_posts c -> p_id p ∈ c_seen c).
Proof.
  destruct (is_some_Some
              (Scenario.run (Scenario.feed 30) 5 0 Scenario.now_utc (FileIds ["a3"; "a7"])))
    as [c Hc]; [vm_compute; reflexivity|].
  exists c. split; [exact Hc|].
  destruct (first_page_and_new_ids_marked unit (Scenario.serve (Scenario.feed 30))
              Scenario.no_counts Scenario.iso_utc default_KEYWORDS default_FILTER_SOLD
              5 0%Q Scenario.now_utc (FileIds ["a3"; "a7"]) tt c Hc) as (_ & Hf & Hin & _).
  split; assumption.
Defined.

Lemma feed_2025_paginated :
  exists reqs,
    paginate (Scenario.serve (Scenario.feed 2025)) Scenario.iso_utc 100
             (load_seen_ids FileMissing) (compute_cutoff Scenario.now_utc 2)
             None tt [] [] = Some (Scenario.feed 2025, reqs, tt).
Proof. eexists. vm_compute. reflexivity. Qed.

Lemma feed_2025_ids : NoDup (p_id <$> Scenario.feed 2025).
Proof.
  replace (p_id <$> Scenario.feed 2025) with (Scenario.ids 2025); [apply ids_2025_NoDup|].
  unfold Scenario.feed, Scenario.ids, Scenario.ids_from.
  by rewrite <- list_fmap_compose.
Qed.

(** C4 as stated fails: with 81 full pages inside a lookback of two hours
    the cycle accumulates 2025 new posts, and the file it writes has room
    for 2000 ids. *)
Lemma truncation_drops_new_ids :
  exists c,
    Scenario.run (Scenario.feed 2025) 100 2 Scenario.now_utc FileMissing = Some c /\
    ~ (forall p, p ∈ c_all_new_posts c -> p_id p ∈ persisted (c_file c)).
Proof.
  destruct feed_2025_paginated as [reqs Hp].
  destruct (check_complete (Scenario.serve (Scenario.feed 2025)) Scenario.no_counts
              Scenario.iso_utc default_KEYWORDS default_FILTER_SOLD
              _ _ _ _ _ _ _ _ Hp) as [c Hc].
  exists c. split; [exact Hc|]. intros Hall.
  destruct (check_Some _ _ _ _ _ _ _ _ _ _ _ Hc)
    as (all & reqs' & w1 & Hp' & _ & Hnew & _ & _ & _ & Hfile & _).
  assert (all = Scenario.feed 2025) as Heq by congruence.
  assert (Hsub : (p_id <$> Scenario.feed 2025) ⊆+ persisted (c_file c)).
  { apply NoDup_submseteq; [apply feed_2025_ids|].
    intros x (p & -> & Hin)%list_elem_of_fmap. apply Hall. by rewrite Hnew, Heq. }
  apply submseteq_length in Hsub.
  rewrite Hfile, length_fmap in Hsub. cbn [persisted save_seen_ids] in Hsub.
  pose proof (truncate_ids_length (c_seen c)) as Hle.
  unfold Scenario.feed in Hsub. rewrite length_map, length_seq in Hsub. lia.
Qed.

(** ** Pagination under a lookback *)

(** C5, amended.  With a cutoff in force, a page whose oldest post is
    older than the cutoff, or that holds fewer than 25 posts, ends the
    pagination; any other page moves the cursor to [t3_] followed by the id
    of its oldest post.  So on a feed of full pages with strictly
    decreasing times and a cutoff between the last post of page 2 and the
    first post of page 3, the cycle requests three pages, the third being
    the first to show a post older than the cutoff, and then the first
    page once more; it accumulates the unseen posts of pages 1 and 2, all
    at or after the cutoff, and nothing of page 3. *)
Theorem lookback_stops_on_first_page_past_cutoff :
  forall (World : Type)
         (fetch_posts : option string -> World -> list Post * World)
         (fetch_comment_counts : list string -> World -> gmap string Z * World)
         (iso_timestamp : string -> option Q)
         (KEYWORDS : list string) (FILTER_SOLD : bool),
    (forall fuel seen cutoff c after w posts oldest w1 acc reqs,
       fetch_posts after w = (posts, w1) -> last posts = Some oldest ->
       cutoff_active cutoff = Some c ->
       ((oldest_time iso_timestamp oldest < c)%Q \/ length posts < 25 ->
        paginate fetch_posts iso_timestamp (S fuel) seen cutoff after w acc reqs =
          Some ((acc ++ in_window iso_timestamp c (new_posts_of seen posts))%list,
                (reqs ++ [after])%list, w1)) /\
       ((c <= oldest_time iso_timestamp oldest)%Q -> 25 <= length posts ->
        paginate fetch_posts iso_timestamp (S fuel) seen cutoff after w acc reqs =
          paginate fetch_posts iso_timestamp fuel seen cutoff
            (Some ("t3_" +:+ p_id oldest)) w1
            (acc ++ in_window iso_timestamp c (new_posts_of seen posts))%list
            (reqs ++ [after])%list)) /\
    (forall fuel lookback_hours now_utc file w c
            page1 page2 page3 front oldest1 oldest2 w1 w2 w3 w4
            times1 times2 times3 t2 t3,
       compute_cutoff now_utc lookback_hours = Some c -> ~ (c == 0)%Q ->
       fetch_posts None w = (page1, w1) -> last page1 = Some oldest1 ->
       fetch_posts (Some ("t3_" +:+ p_id oldest1)) w1 = (page2, w2) ->
       last page2 = Some oldest2 ->
       fetch_posts (Some ("t3_" +:+ p_id oldest2)) w2 = (page3, w3) ->
       fetch_posts None w3 = (front, w4) ->
       length page1 = 25 -> length page2 = 25 ->
       Forall2 (fun p t => published_time iso_timestamp p = Some t) page1 times1 ->
       Forall2 (fun p t => published_time iso_timestamp p = Some t) page2 times2 ->
       Forall2 (fun p t => published_time iso_timestamp p = Some t) page3 times3 ->
       Spec.decreasing (times1 ++ times2 ++ times3)%list ->
       last times2 = Some t2 -> head times3 = Some t3 ->
       (t3 < c)%Q -> (c <= t2)%Q ->
       3 <= fuel ->
       exists cyc,
         check fetch_posts fetch_comment_counts iso_timestamp KEYWORDS FILTER_SOLD
               fuel lookback_hours now_utc file w = Some cyc /\
         c_requests cyc = [None; Some ("t3_" +:+ p_id oldest1);
                           Some ("t3_" +:+ p_id oldest2); None] /\
         c_all_new_posts cyc = new_posts_of (load_seen_ids file) (page1 ++ page2)%list /\
         c_all_fetched cyc = front).
Proof.
  intros World fetch_posts fetch_comment_counts iso_timestamp KEYWORDS FILTER_SOLD.
  split.
  { intros fuel seen cutoff c after w posts oldest w1 acc reqs Hf Hl Hc. split.
    - intros Hstop. by eapply paginate_stop.
    - intros Ht Hn. by eapply paginate_continue. }
  intros fuel lookback_hours now_utc file w c page1 page2 page3 front oldest1 oldest2
         w1 w2 w3 w4 times1 times2 times3 t2 t3
         Hcut Hc0 Hf1 Hl1 Hf2 Hl2 Hf3 Hf4 Hn1 Hn2 HT1 HT2 HT3 Hdec Ht2 Ht3 Hlt Hle Hfuel.
  assert (Hact : cutoff_active (compute_cutoff now_utc lookback_hours) = Some c)
    by (by apply cutoff_active_Some).
  (* every time of the first two pages is at or after the cutoff *)
  assert (Hfront : forall t, t ∈ (times1 ++ times2)%list -> (c <= t)%Q).
  { intros t Ht. apply Qle_trans with t2; [done|].
    rewrite (assoc_L (++)) in Hdec.
    apply (decreasing_front _ _ t2 Hdec); [|done].
    by rewrite last_app, Ht2. }
  (* every time of the third page is before it *)
  assert (Hback : forall t, t ∈ times3 -> (t < c)%Q).
  { intros t Ht. apply Qle_lt_trans with t3; [|done].
    rewrite (assoc_L (++)) in Hdec.
    by apply (decreasing_back _ _ t3 Hdec). }
  assert (Hin1 : forall p, p ∈ page1 -> exists t, published_time iso_timestamp p = Some t /\ (c <= t)%Q).
  { intros p Hp. destruct (timed_page _ _ _ HT1 p Hp) as (t & Ht & Hpt).
    exists t. split; [done|]. apply Hfront, elem_of_app. by left. }
  assert (Hin2 : forall p, p ∈ page2 -> exists t, published_time iso_timestamp p = Some t /\ (c <= t)%Q).
  { intros p Hp. destruct (timed_page _ _ _ HT2 p Hp) as (t & Ht & Hpt).
    exists t. split; [done|]. apply Hfront, elem_of_app. by right. }
  assert (Hin3 : forall p, p ∈ page3 -> exists t, published_time iso_timestamp p = Some t /\ (t < c)%Q).
  { intros p Hp. destruct (timed_page _ _ _ HT3 p Hp) as (t & Ht & Hpt).
    exists t. split; [done|]. by apply Hback. }
  set (seen := load_seen_ids file).
  assert (Hw1 : in_window iso_timestamp c (new_posts_of seen page1) = new_posts_of seen page1).
  { apply in_window_all. intros p [_ Hp]%new_posts_of_elem.
    destruct (Hin1 p Hp) as (t & Hpt & Hct). by apply (within_timed _ _ _ _ Hpt). }
  assert (Hw2 : in_window iso_timestamp c (new_posts_of seen page2) = new_posts_of seen page2).
  { apply in_window_all. intros p [_ Hp]%new_posts_of_elem.
    destruct (Hin2 p Hp) as (t & Hpt & Hct). by apply (within_timed _ _ _ _ Hpt). }
  assert (Hw3 : in_window iso_timestamp c (new_posts_of seen page3) = []).
  { apply in_window_none. intros p [_ Hp]%new_posts_of_elem.
    destruct (Hin3 p Hp) as (t & Hpt & Hct).
    destruct (within iso_timestamp c p) eqn:E; [|done].
    apply (within_timed _ _ _ _ Hpt) in E. by apply Qlt_not_le in Hct. }
  assert (Ho1 : (c <= oldest_time iso_timestamp oldest1)%Q).
  { destruct (Hin1 oldest1 (last_Some_elem_of _ _ Hl1)) as (t & Hpt & Hct).
    unfold oldest_time. by rewrite Hpt. }
  assert (Ho2 : (c <= oldest_time iso_timestamp oldest2)%Q).
  { destruct (Hin2 oldest2 (last_Some_elem_of _ _ Hl2)) as (t & Hpt & Hct).
    unfold oldest_time. by rewrite Hpt. }
  assert (exists oldest3, last page3 = Some oldest3) as [oldest3 Hl3].
  { destruct page3 as [|p3 rest3] using rev_ind.
    - apply Forall2_nil_inv_l in HT3. subst times3. done.
    - exists p3. apply last_snoc. }
  assert (Ho3 : (oldest_time iso_timestamp oldest3 < c)%Q).
  { destruct (Hin3 oldest3 (last_Some_elem_of _ _ Hl3)) as (t & Hpt & Hct).
    unfold oldest_time. by rewrite Hpt. }
  destruct fuel as [|[|[|fuel]]]; [lia..|].
  assert (Hpag : paginate fetch_posts iso_timestamp (S (S (S fuel))) seen
                   (compute_cutoff now_utc lookback_hours) None w [] [] =
                 Some (new_posts_of seen (page1 ++ page2)%list,
                       [None; Some ("t3_" +:+ p_id oldest1); Some ("t3_" +:+ p_id oldest2)],
                       w3)).
  { rewrite (paginate_continue _ _ _ _ _ c _ _ page1 oldest1 w1) by (done || lia).
    rewrite (paginate_continue _ _ _ _ _ c _ _ page2 oldest2 w2) by (done || lia).
    rewrite (paginate_stop _ _ _ _ _ c _ _ page3 oldest3 w3) by (done || by left).
    rewrite Hw1, Hw2, Hw3. unfold new_posts_of. rewrite filter_app.
    by rewrite app_nil_r. }
  destruct (check_complete fetch_posts fetch_comment_counts iso_timestamp KEYWORDS
              FILTER_SOLD _ _ _ _ _ _ _ _ Hpag) as [cyc Hcyc].
  exists cyc. split; [done|].
  destruct (check_Some _ _ _ _ _ _ _ _ _ _ _ Hcyc)
    as (all & reqs & w1' & Hp' & _ & Hall & Hreq & Hfetched & _).
  fold seen in Hp'. rewrite Hpag in Hp'. inversion Hp'; subst all reqs w1'.
  split; [by rewrite Hreq|]. split; [done|]. by rewrite Hfetched, Hf4.
Qed.

(** Three full pages, one post a second. *)
Lemma lookback_stops_on_first_page_past_cutoff_witness :
  exists cyc,
    Scenario.run (Scenario.feed 75) 3 (11 # 800) Scenario.now_utc FileMissing = Some cyc /\
    c_requests cyc = [None; Some "t3_a24"; Some "t3_a49"; None].
Proof.
  edestruct (proj2 (lookback_stops_on_first_page_past_cutoff unit
                      (Scenario.serve (Scenario.feed 75)) Scenario.no_counts
                      Scenario.iso_utc default_KEYWORDS default_FILTER_SOLD)
               3 (11 # 800)%Q Scenario.now_utc FileMissing tt
               (1363256920400 # 800)%Q
               (take 25 (Scenario.feed 75)) (take 25 (drop 25 (Scenario.feed 75)))
               (drop 50 (Scenario.feed 75)) (take 25 (Scenario.feed 75))
               (Scenario.post_at 24) (Scenario.post_at 49) tt tt tt tt
               (Scenario.page_times (take 25 (Scenario.feed 75)))
               (Scenario.page_times (take 25 (drop 25 (Scenario.feed 75))))
               (Scenario.page_times (drop 50 (Scenario.feed 75)))
               (inject_Z (Scenario.midnight + 3951)) (inject_Z (Scenario.midnight + 3950)))
    as (cyc & Hc & Hr & _).
  - vm_compute; reflexivity.
  - vm_compute. discriminate.
  - vm_compute; reflexivity.
  - vm_compute; reflexivity.
  - vm_compute; reflexivity.
  - vm_compute; reflexivity.
  - vm_compute; reflexivity.
  - vm_compute; reflexivity.
  - vm_compute; reflexivity.
  - vm_compute; reflexivity.
  - apply mapM_Some. vm_compute; reflexivity.
  - apply mapM_Some. vm_compute; reflexivity.
  - apply mapM_Some. vm_compute; reflexivity.
  - apply falling_decreasing. vm_compute; reflexivity.
  - vm_compute; reflexivity.
  - vm_compute; reflexivity.
  - vm_compute; reflexivity.
  - vm_compute. discriminate.
  - lia.
  - exists cyc. split; [exact Hc|exact Hr].
Defined.

(** C5 as stated fails: three full pages, one post a second, the cutoff
    half a second after the first post of page 3.  The cycle requests
    three pages and the first page again, four requests and not three. *)
Lemma boundary_cutoff_takes_three_pages :
  exists cyc cutoff,
    Scenario.run (Scenario.feed 75) 10 (11 # 800) Scenario.now_utc FileMissing = Some cyc /\
    compute_cutoff Scenario.now_utc (11 # 800) = Some cutoff /\
    Spec.decreasing (Scenario.page_times (Scenario.feed 75)) /\
    (exists t2 t3,
       published_time Scenario.iso_utc (Scenario.post_at 49) = Some t2 /\
       published_time Scenario.iso_utc (Scenario.post_at 50) = Some t3 /\
       (t3 < cutoff)%Q /\ (cutoff <= t2)%Q) /\
    c_requests cyc = [None; Some "t3_a24"; Some "t3_a49"; None] /\
    length (c_requests cyc) <> 2 + 1.
Proof.
  destruct (is_some_Some
              (Scenario.run (Scenario.feed 75) 10 (11 # 800) Scenario.now_utc FileMissing))
    as [cyc Hc]; [vm_compute; reflexivity|].
  assert (Hreq : c_requests cyc = [None; Some "t3_a24"; Some "t3_a49"; None]).
  { assert (H : c_requests <$>
                Scenario.run (Scenario.feed 75) 10 (11 # 800) Scenario.now_utc FileMissing
                = Some [None; Some "t3_a24"; Some "t3_a49"; None])
      by (vm_compute; reflexivity).
    rewrite Hc in H. by inversion H. }
  exists cyc, (Scenario.now_utc - (11 # 800) * 3600)%Q.
  split; [exact Hc|]. split; [reflexivity|].
  split; [apply falling_decreasing; vm_compute; reflexivity|].
  split.
  { exists (inject_Z (Scenario.midnight + 3951)), (inject_Z (Scenario.midnight + 3950)).
    split; [vm_compute; reflexivity|]. split; [vm_compute; reflexivity|].
    split; [vm_compute; reflexivity|]. vm_compute. discriminate. }
  split; [exact Hreq|]. rewrite Hreq. cbn. lia.
Qed.

(** C10, amended.  With a cutoff in force that lies after the epoch
    ([0 < cutoff]), a page whose oldest post has a time that does not parse
    ends the pagination: the loop returns with the request for that page
    as its last one.  That post itself, when it is new, is kept in the
    window. *)
Theorem unparseable_oldest_time_stops_pagination :
  forall (World : Type)
         (fetch_posts : option string -> World -> list Post * World)
         (iso_timestamp : string -> option Q)
         (fuel : nat) (seen : gset string) (cutoff : option Q) (c : Q)
         (after : option string) (w w1 : World) (posts : list Post) (oldest : Post)
         (acc : list Post) (reqs : list (option string)),
    fetch_posts after w = (posts, w1) -> last posts = Some oldest ->
    cutoff_active cutoff = Some c -> (0 < c)%Q ->
    published_time iso_timestamp oldest = None ->
    paginate fetch_posts iso_timestamp (S fuel) seen cutoff after w acc reqs =
      Some ((acc ++ in_window iso_timestamp c (new_posts_of seen posts))%list,
            (reqs ++ [after])%list, w1) /\
    (p_id oldest ∉ seen ->
     oldest ∈ in_window iso_timestamp c (new_posts_of seen posts)).
Proof.
  intros World fetch_posts iso_timestamp fuel seen cutoff c after w w1 posts oldest
         acc reqs Hf Hl Hc Hpos Hnone.
  split.
  - eapply paginate_stop; [done..|]. left. unfold oldest_time. by rewrite Hnone.
  - intros Hnew. apply in_window_elem. split; [by apply within_untimed|].
    apply new_posts_of_elem. split; [done|]. by apply last_Some_elem_of.
Qed.

(** A full page of posts without a time, under a lookback of five hours. *)
Lemma unparseable_oldest_time_stops_pagination_witness :
  exists all,
    paginate (Scenario.serve (Scenario.undated_feed 30)) Scenario.iso_utc 5 ∅
             (compute_cutoff Scenario.now_utc 5) None tt [] [] = Some (all, [None], tt) /\
    length all = 25.
Proof.
  edestruct (unparseable_oldest_time_stops_pagination unit
               (Scenario.serve (Scenario.undated_feed 30)) Scenario.iso_utc
               4 ∅ (compute_cutoff Scenario.now_utc 5) (Scenario.now_utc - 5 * 3600)%Q None tt tt
               (take 25 (Scenario.undated_feed 30))
               (Scenario.post_with "a24" "Pachanoi cutting" EmptyString) [] [])
    as [Hp _].
  - vm_compute; reflexivity.
  - vm_compute; reflexivity.
  - vm_compute; reflexivity.
  - vm_compute; reflexivity.
  - vm_compute; reflexivity.
  - eexists. split; [exact Hp|]. vm_compute; reflexivity.
Defined.

(** C10 as stated fails: a lookback of 500000 hours puts the cutoff before
    1970, where it is negative.  The oldest post of the first page has no
    time, its time counts as 0, which is not before the cutoff, and the
    loop goes on to request the next page. *)
Lemma negative_cutoff_keeps_paginating :
  exists cyc cutoff,
    compute_cutoff Scenario.now_utc 500000 = Some cutoff /\
    cutoff_active (Some cutoff) = Some cutoff /\
    (cutoff < 0)%Q /\
    published_time Scenario.iso_utc
      (Scenario.post_with "a24" "Pachanoi cutting" EmptyString) = None /\
    last (Scenario.serve (Scenario.undated_feed 30) None tt).1 =
      Some (Scenario.post_with "a24" "Pachanoi cutting" EmptyString) /\
    Scenario.run (Scenario.undated_feed 30) 10 500000 Scenario.now_utc FileMissing = Some cyc /\
    c_requests cyc = [None; Some "t3_a24"; None].
Proof.
  destruct (is_some_Some
              (Scenario.run (Scenario.undated_feed 30) 10 500000 Scenario.now_utc FileMissing))
    as [cyc Hc]; [vm_compute; reflexivity|].
  assert (Hreq : c_requests cyc = [None; Some "t3_a24"; None]).
  { assert (H : c_requests <$>
                Scenario.run (Scenario.undated_feed 30) 10 500000 Scenario.now_utc FileMissing
                = Some [None; Some "t3_a24"; None])
      by (vm_compute; reflexivity).
    rewrite Hc in H. by inversion H. }
  exists cyc, (Scenario.now_utc - 500000 * 3600)%Q.
  split; [reflexivity|].
  split; [vm_compute; reflexivity|].
  split; [vm_compute; reflexivity|].
  split; [vm_compute; reflexivity|].
  split; [vm_compute; reflexivity|].
  split; [exact Hc|exact Hreq].
Qed.

(** * Further properties of the code *)

(** ** Saving and loading *)

Lemma truncate_ids_NoDup seen : NoDup (truncate_ids seen).
Proof.
  unfold truncate_ids, py_last.
  apply (sublist_NoDup _ (elements seen)); [apply NoDup_elements|apply sublist_drop].
Qed.

Lemma truncate_ids_exact seen : length (truncate_ids seen) = Nat.min (size seen) 2000.
Proof.
  unfold truncate_ids, py_last. rewrite length_drop.
  change (length (elements seen)) with (size seen). lia.
Qed.

Lemma load_save_small seen :
  size seen <= 2000 -> load_seen_ids (save_seen_ids seen) = seen.
Proof.
  intros Hsize. cbn [load_seen_ids save_seen_ids].
  rewrite (truncate_ids_small _ Hsize). apply list_to_set_elements_L.
Qed.

(** X1.  Saving a seen-set of at most 2000 ids and loading the file again
    gives the same set. *)
Theorem save_load_round_trip :
  forall seen : gset string,
    size seen <= 2000 -> load_seen_ids (save_seen_ids seen) = seen.
Proof.
  intros seen Hsize. cbn [load_seen_ids save_seen_ids].
  rewrite (truncate_ids_small _ Hsize). apply list_to_set_elements_L.
Qed.

Lemma save_load_round_trip_witness :
  load_seen_ids (save_seen_ids (Spec.add_all ∅ ["abc123"; "def456"]))
  = Spec.add_all ∅ ["abc123"; "def456"].
Proof. apply save_load_round_trip. vm_compute. lia. Defined.

(** X2.  Whatever the size of the seen-set, the file written holds no id
    twice and no id that is not in the set; loading it gives a subset of
    the set with [min (size seen) 2000] ids; and saving and loading that
    subset again loses nothing more. *)
Theorem save_load_bounded_loss :
  forall seen : gset string,
    let back := load_seen_ids (save_seen_ids seen) in
    NoDup (persisted (save_seen_ids seen)) /\
    back ⊆ seen /\
    size back = Nat.min (size seen) 2000 /\
    load_seen_ids (save_seen_ids back) = back.
Proof.
  intros seen back.
  assert (Hsize : size back = Nat.min (size seen) 2000).
  { unfold back. cbn [load_seen_ids save_seen_ids].
    rewrite size_list_to_set by apply truncate_ids_NoDup.
    apply truncate_ids_exact. }
  split; [apply truncate_ids_NoDup|]. split.
  - intros x Hx. unfold back in Hx. cbn [load_seen_ids save_seen_ids] in Hx.
    apply elem_of_list_to_set in Hx. by apply truncate_ids_elem.
  - split; [exact Hsize|]. apply load_save_small. lia.
Qed.

(** ** More on the cycle *)

Lemma no_lookback_no_cutoff now_utc lookback_hours :
  ~ (0 < lookback_hours)%Q -> compute_cutoff now_utc lookback_hours = None.
Proof.
  intros H. unfold compute_cutoff.
  destruct (Qltb 0 lookback_hours) eqn:E; [|done]. by apply Qltb_lt in E.
Qed.

Section CycleFacts.
Context {World : Type}.
Variable fetch_posts : option string -> World -> list Post * World.
Variable fetch_comment_counts : list string -> World -> gmap string Z * World.
Variable iso_timestamp : string -> option Q.
Variable KEYWORDS : list string.
Variable FILTER_SOLD : bool.

#[local] Abbreviation paginate'' := (paginate fetch_posts iso_timestamp).
#[local] Abbreviation check'' :=
  (check fetch_posts fetch_comment_counts iso_timestamp KEYWORDS FILTER_SOLD).
#[local] Abbreviation select'' := (select_matches KEYWORDS FILTER_SOLD).

(** The matches of a completed cycle are the selected new posts with their
    comment counts. *)
Lemma check_matches fuel lookback_hours now_utc file w c :
  check'' fuel lookback_hours now_utc file w = Some c ->
  exists counts, c_matches c = enrich counts (select'' (c_all_new_posts c)).
Proof.
  unfold check. intros H.
  destruct (paginate'' _ _ _ _ _ _ _) as [[[all reqs] w1]|]; [|done].
  destruct (fetch_posts None w1) as [front w2].
  destruct (select'' all) as [|m0 ms] eqn:Em.
  - inversion H; subst c. cbn [c_matches c_all_new_posts]. exists ∅. by rewrite Em.
  - destruct (fetch_comment_counts _ w2) as [counts w3].
    inversion H; subst c. cbn [c_matches c_all_new_posts]. exists counts. by rewrite Em.
Qed.

(** One page, whatever it holds, when no cutoff is in force. *)
Lemma paginate_without_cutoff fuel seen cutoff after w acc reqs :
  cutoff_active cutoff = None ->
  paginate'' (S fuel) seen cutoff after w acc reqs =
    Some ((acc ++ new_posts_of seen (fetch_posts after w).1)%list,
          (reqs ++ [after])%list, (fetch_posts after w).2).
Proof.
  intros Hoff. destruct (fetch_posts after w) as [posts w1] eqn:Hf.
  destruct posts as [|p posts].
  - rewrite (paginate_empty _ _ _ _ _ _ _ w1) by done. cbn. by rewrite app_nil_r.
  - by apply paginate_single.
Qed.

(** Under a cutoff, whatever the loop adds lies in the window. *)
Lemma paginate_within fuel seen cutoff c after w acc reqs all reqs' w' :
  cutoff_active cutoff = Some c ->
  paginate'' fuel seen cutoff after w acc reqs = Some (all, reqs', w') ->
  forall p, p ∈ all -> p ∈ acc \/ within iso_timestamp c p = true.
Proof.
  intros Hc. revert after w acc reqs.
  induction fuel as [|fuel IH]; intros after w acc reqs H p Hp; [done|].
  simpl in H. destruct (fetch_posts after w) as [posts w1].
  destruct posts as [|first rest]; [inversion H; subst; by left|].
  rewrite Hc in H.
  match type of H with
  | (if ?b then _ else _) = _ => destruct b
  end.
  - inversion H; subst. apply elem_of_app in Hp as [Hp|Hp]; [by left|right].
    by apply in_window_elem in Hp as [Hp _].
  - destruct (IH _ _ _ _ H p Hp) as [Hq|Hq]; [|by right].
    apply elem_of_app in Hq as [Hq|Hq]; [by left|right].
    by apply in_window_elem in Hq as [Hq _].
Qed.

Lemma select_matches_ids posts :
  (p_id <$> select'' posts) `sublist_of` (p_id <$> posts).
Proof.
  unfold select_matches. induction posts as [|p posts IH]; [done|].
  cbn [omap list_omap fmap list_fmap].
  destruct (is_sold FILTER_SOLD p); [by apply sublist_cons|].
  destruct (match_keywords KEYWORDS p) as [|kw kws]; [by apply sublist_cons|].
  cbn. by apply sublist_skip.
Qed.

Lemma select_matches_complete posts p :
  p ∈ posts -> is_sold FILTER_SOLD p = false -> match_keywords KEYWORDS p <> [] ->
  set_matched_kws (match_keywords KEYWORDS p) p ∈ select'' posts.
Proof.
  intros Hin Hs Hk. unfold select_matches. apply list_elem_of_omap.
  exists p. split; [done|]. rewrite Hs.
  by destruct (match_keywords KEYWORDS p).
Qed.

Lemma enrich_ids counts matches : p_id <$> enrich counts matches = p_id <$> matches.
Proof. unfold enrich. rewrite <- list_fmap_compose. by apply list_fmap_ext. Qed.

End CycleFacts.

(** X3.  No cutoff is in force when the lookback is not positive, or when
    the cutoff comes out as exactly 0.  Then, for any page budget of at
    least one, the cycle completes with two requests, both for the first
    page, and its new posts are the unseen posts of the page fetched
    first. *)
Theorem single_page_without_cutoff :
  (forall now_utc lookback_hours : Q,
     ~ (0 < lookback_hours)%Q ->
     cutoff_active (compute_cutoff now_utc lookback_hours) = None) /\
  (forall now_utc lookback_hours : Q,
     (now_utc - lookback_hours * 3600 == 0)%Q ->
     cutoff_active (compute_cutoff now_utc lookback_hours) = None) /\
  (forall (World : Type)
          (fetch_posts : option string -> World -> list Post * World)
          (fetch_comment_counts : list string -> World -> gmap string Z * World)
          (iso_timestamp : string -> option Q)
          (KEYWORDS : list string) (FILTER_SOLD : bool)
          (fuel : nat) (lookback_hours now_utc : Q) (file : StateFile) (w : World),
     cutoff_active (compute_cutoff now_utc lookback_hours) = None ->
     exists c,
       check fetch_posts fetch_comment_counts iso_timestamp KEYWORDS FILTER_SOLD
             (S fuel) lookback_hours now_utc file w = Some c /\
       c_requests c = [None; None] /\
       c_all_new_posts c = new_posts_of (load_seen_ids file) (fetch_posts None w).1).
Proof.
  split; [|split].
  - intros now_utc lookback_hours H. by rewrite no_lookback_no_cutoff.
  - intros now_utc lookback_hours H. unfold compute_cutoff.
    destruct (Qltb 0 lookback_hours); [|done]. cbn [cutoff_active].
    by rewrite (Qeq_eq_bool _ _ H).
  - intros World fetch_posts fetch_comment_counts iso_timestamp KEYWORDS FILTER_SOLD
           fuel lookback_hours now_utc file w Hoff.
    pose proof (paginate_without_cutoff fetch_posts iso_timestamp fuel
                  (load_seen_ids file) _ None w [] [] Hoff) as Hp.
    destruct (check_complete fetch_posts fetch_comment_counts iso_timestamp KEYWORDS
                FILTER_SOLD _ _ _ _ _ _ _ _ Hp) as [c Hc].
    exists c. split; [exact Hc|].
    destruct (check_Some _ _ _ _ _ _ _ _ _ _ _ Hc)
      as (all & reqs & w1 & Hp' & _ & Hall & Hreq & _).
    rewrite Hp in Hp'. inversion Hp'; subst all reqs w1. by split.
Qed.

Lemma single_page_without_cutoff_witness :
  exists c,
    Scenario.run (Scenario.feed 30) 1 0 Scenario.now_utc FileMissing = Some c /\
    c_requests c = [None; None].
Proof.
  destruct (proj2 (proj2 single_page_without_cutoff) unit
              (Scenario.serve (Scenario.feed 30)) Scenario.no_counts Scenario.iso_utc
              default_KEYWORDS default_FILTER_SOLD 0 0%Q Scenario.now_utc FileMissing tt)
    as (c & Hc & Hr & _).
  - reflexivity.
  - exists c. split; [exact Hc|exact Hr].
Defined.

(** X4.  When the first request of a cycle comes back empty, which is what
    [fetch_posts] returns on a network error, an HTTP error status or a
    feed that does not parse, the cycle still completes, for every
    lookback: it has no new posts and no matches, has made two requests,
    and saves the loaded set with the ids of the re-fetched page. *)
Theorem failed_fetch_gives_empty_cycle :
  (forall (World : Type) (ET_entries : string -> option (list Feed.Entry))
          (time_str : nat -> string)
          (http_get : string -> World -> option string * World)
          (after : option string) (w : World),
     (http_get (Feed.RSS_URL +:+ match after with
                                 | Some (String c a) => "&after=" +:+ String c a
                                 | _ => EmptyString
                                 end) w).1 = None \/
     (exists text,
        (http_get (Feed.RSS_URL +:+ match after with
                                    | Some (String c a) => "&after=" +:+ String c a
                                    | _ => EmptyString
                                    end) w).1 = Some text /\
        ET_entries (Feed.strip_junk ["<?xml"; "<feed"; "<rss"] text) = None) ->
     (Feed.fetch_posts ET_entries time_str http_get after w).1 = []) /\
  (forall (World : Type)
          (fetch_posts : option string -> World -> list Post * World)
          (fetch_comment_counts : list string -> World -> gmap string Z * World)
          (iso_timestamp : string -> option Q)
          (KEYWORDS : list string) (FILTER_SOLD : bool)
          (fuel : nat) (lookback_hours now_utc : Q) (file : StateFile) (w : World),
     (fetch_posts None w).1 = [] ->
     exists c,
       check fetch_posts fetch_comment_counts iso_timestamp KEYWORDS FILTER_SOLD
             (S fuel) lookback_hours now_utc file w = Some c /\
       c_requests c = [None; None] /\
       c_all_new_posts c = [] /\ c_matches c = [] /\
       c_seen c = mark_seen (load_seen_ids file) (c_all_fetched c)).
Proof.
  split.
  - intros World ET_entries time_str http_get after w H. unfold Feed.fetch_posts.
    destruct (http_get _ w) as [[text|] w'] eqn:E; [|done].
    destruct H as [H|(text' & H & Hp)]; [done|].
    cbn in H. inversion H; subst text'. unfold Feed.parse_rss. by rewrite Hp.
  - intros World fetch_posts fetch_comment_counts iso_timestamp KEYWORDS FILTER_SOLD
           fuel lookback_hours now_utc file w Hempty.
    destruct (fetch_posts None w) as [posts w1] eqn:Hf. cbn in Hempty. subst posts.
    pose proof (paginate_empty fetch_posts iso_timestamp fuel (load_seen_ids file)
                  (compute_cutoff now_utc lookback_hours) None w w1 [] [] Hf) as Hp.
    destruct (check_complete fetch_posts fetch_comment_counts iso_timestamp KEYWORDS
                FILTER_SOLD _ _ _ _ _ _ _ _ Hp) as [c Hc].
    exists c. split; [exact Hc|].
    destruct (check_Some _ _ _ _ _ _ _ _ _ _ _ Hc)
      as (all & reqs & w1' & Hp' & _ & Hall & Hreq & _ & Hseen & _).
    rewrite Hp in Hp'. injection Hp' as E1 E2 E3.
    rewrite <- E1 in Hall, Hseen. rewrite <- E2 in Hreq.
    destruct (check_matches _ _ _ _ _ _ _ _ _ _ _ Hc) as [counts Hm].
    split; [done|]. split; [done|]. split; [by rewrite Hm, Hall|].
    by rewrite Hseen.
Qed.

Lemma failed_fetch_gives_empty_cycle_witness :
  exists c,
    Scenario.run [] 1 2 Scenario.now_utc (FileIds ["abc123"]) = Some c /\
    c_all_new_posts c = [] /\ c_matches c = [].
Proof.
  destruct (proj2 failed_fetch_gives_empty_cycle unit
              (Scenario.serve []) Scenario.no_counts Scenario.iso_utc
              default_KEYWORDS default_FILTER_SOLD 0 2%Q Scenario.now_utc
              (FileIds ["abc123"]) tt)
    as (c & Hc & _ & Hn & Hm & _).
  - reflexivity.
  - exists c. split; [exact Hc|]. split; [exact Hn|exact Hm].
Defined.

(** X5.  Under a cutoff, every new post a completed cycle accumulates has
    a published time that does not parse or that is at or after the
    cutoff: no post known to be older than the cutoff is reported. *)
Theorem lookback_reports_only_the_window :
  forall (World : Type)
         (fetch_posts : option string -> World -> list Post * World)
         (fetch_comment_counts : list string -> World -> gmap string Z * World)
         (iso_timestamp : string -> option Q)
         (KEYWORDS : list string) (FILTER_SOLD : bool)
         (fuel : nat) (lookback_hours now_utc cutoff : Q) (file : StateFile) (w : World)
         (c : Cycle World),
    cutoff_active (compute_cutoff now_utc lookback_hours) = Some cutoff ->
    check fetch_posts fetch_comment_counts iso_timestamp KEYWORDS FILTER_SOLD
          fuel lookback_hours now_utc file w = Some c ->
    forall p, p ∈ c_all_new_posts c ->
      published_time iso_timestamp p = None \/
      exists t, published_time iso_timestamp p = Some t /\ (cutoff <= t)%Q.
Proof.
  intros World fetch_posts fetch_comment_counts iso_timestamp KEYWORDS FILTER_SOLD
         fuel lookback_hours now_utc cutoff file w c Hcut Hc p Hp.
  destruct (check_Some _ _ _ _ _ _ _ _ _ _ _ Hc)
    as (all & reqs & w1 & Hpag & _ & Hall & _).
  rewrite Hall in Hp.
  destruct (paginate_within _ _ _ _ _ _ _ _ _ _ _ _ _ Hcut Hpag p Hp) as [Hin|Hw].
  - by apply not_elem_of_nil in Hin.
  - unfold within in Hw. destruct (published_time iso_timestamp p) as [t|]; [|by left].
    right. exists t. split; [done|]. by apply Qle_bool_iff.
Qed.

Lemma lookback_reports_only_the_window_witness :
  exists c,
    Scenario.run (Scenario.feed 75) 10 (11 # 800) Scenario.now_utc FileMissing = Some c /\
    forall p, p ∈ c_all_new_posts c ->
      published_time Scenario.iso_utc p = None \/
      exists t, published_time Scenario.iso_utc p = Some t /\
                (Scenario.now_utc - (11 # 800) * 3600 <= t)%Q.
Proof.
  destruct (is_some_Some
              (Scenario.run (Scenario.feed 75) 10 (11 # 800) Scenario.now_utc FileMissing))
    as [c Hc]; [vm_compute; reflexivity|].
  exists c. split; [exact Hc|].
  apply (lookback_reports_only_the_window unit (Scenario.serve (Scenario.feed 75))
           Scenario.no_counts Scenario.iso_utc default_KEYWORDS default_FILTER_SOLD
           10 (11 # 800)%Q Scenario.now_utc _ FileMissing tt c); [|exact Hc].
  vm_compute; reflexivity.
Defined.

Section MoreCycleFacts.
Context {World : Type}.
Variable fetch_posts : option string -> World -> list Post * World.
Variable fetch_comment_counts : list string -> World -> gmap string Z * World.
Variable iso_timestamp : string -> option Q.
Variable KEYWORDS : list string.
Variable FILTER_SOLD : bool.

#[local] Abbreviation check''' :=
  (check fetch_posts fetch_comment_counts iso_timestamp KEYWORDS FILTER_SOLD).

(** The seen-set handed to [save_seen_ids], id by id. *)
Lemma check_seen fuel lookback_hours now_utc file w c :
  check''' fuel lookback_hours now_utc file w = Some c ->
  forall x, x ∈ c_seen c <->
            x ∈ load_seen_ids file \/ x ∈ (p_id <$> c_all_fetched c) \/
            x ∈ (p_id <$> c_all_new_posts c).
Proof.
  intros Hc x.
  destruct (check_Some _ _ _ _ _ _ _ _ _ _ _ Hc)
    as (all & reqs & w1 & _ & _ & Hall & _ & _ & Hseen & _).
  rewrite Hseen, Hall, !mark_seen_elem, !list_elem_of_fmap. split.
  - intros [[H|(p & Hp & <-)]|(p & Hp & <-)];
      [by left|right; left; by exists p|right; right; by exists p].
  - intros [H|[(p & -> & Hp)|(p & -> & Hp)]];
      [left; by left|left; right; by exists p|right; by exists p].
Qed.

Lemma check_without_cutoff fuel lookback_hours now_utc file w :
  cutoff_active (compute_cutoff now_utc lookback_hours) = None ->
  exists c,
    check''' (S fuel) lookback_hours now_utc file w = Some c /\
    c_all_new_posts c = new_posts_of (load_seen_ids file) (fetch_posts None w).1.
Proof.
  intros Hoff.
  pose proof (paginate_without_cutoff fetch_posts iso_timestamp fuel
                (load_seen_ids file) _ None w [] [] Hoff) as Hp.
  destruct (check_complete fetch_posts fetch_comment_counts iso_timestamp KEYWORDS
              FILTER_SOLD _ _ _ _ _ _ _ _ Hp) as [c Hc].
  exists c. split; [exact Hc|].
  destruct (check_Some _ _ _ _ _ _ _ _ _ _ _ Hc)
    as (all & reqs & w1 & Hp' & _ & Hall & _).
  rewrite Hp in Hp'. injection Hp' as E1 _ _. by rewrite Hall, <- E1.
Qed.

End MoreCycleFacts.

Lemma select_matches_inv (KEYWORDS : list string) (FILTER_SOLD : bool) posts m :
  m ∈ select_matches KEYWORDS FILTER_SOLD posts ->
  exists p, p ∈ posts /\ is_sold FILTER_SOLD p = false /\
            match_keywords KEYWORDS p <> [] /\
            m = set_matched_kws (match_keywords KEYWORDS p) p.
Proof.
  unfold select_matches. intros (p & Hp & Hm)%list_elem_of_omap. exists p.
  split; [done|]. destruct (is_sold FILTER_SOLD p); [done|].
  destruct (match_keywords KEYWORDS p) as [|kw kws] eqn:E; [done|].
  inversion Hm. done.
Qed.

(** X6.  When the state written by a completed cycle holds at most 2000
    ids and the next cycle runs without a cutoff and finds on the first
    page only posts whose ids that state holds, as when the page is the one
    just re-fetched, the next cycle completes with no new posts and no
    matches. *)
Theorem next_cycle_finds_nothing_new :
  forall (World : Type)
         (fetch_posts : option string -> World -> list Post * World)
         (fetch_comment_counts : list string -> World -> gmap string Z * World)
         (iso_timestamp : string -> option Q)
         (KEYWORDS : list string) (FILTER_SOLD : bool)
         (fuel1 fuel2 : nat) (lookback1 lookback2 now1 now2 : Q)
         (file : StateFile) (w : World) (c1 : Cycle World),
    check fetch_posts fetch_comment_counts iso_timestamp KEYWORDS FILTER_SOLD
          fuel1 lookback1 now1 file w = Some c1 ->
    size (c_seen c1) <= 2000 ->
    cutoff_active (compute_cutoff now2 lookback2) = None ->
    (forall p, p ∈ (fetch_posts None (c_world c1)).1 -> p_id p ∈ c_seen c1) ->
    exists c2,
      check fetch_posts fetch_comment_counts iso_timestamp KEYWORDS FILTER_SOLD
            (S fuel2) lookback2 now2 (c_file c1) (c_world c1) = Some c2 /\
      c_loaded c2 = c_seen c1 /\
      c_all_new_posts c2 = [] /\ c_matches c2 = [].
Proof.
  intros World fetch_posts fetch_comment_counts iso_timestamp KEYWORDS FILTER_SOLD
         fuel1 fuel2 lookback1 lookback2 now1 now2 file w c1 Hc1 Hsize Hoff Hknown.
  destruct (check_Some _ _ _ _ _ _ _ _ _ _ _ Hc1)
    as (_ & _ & _ & _ & _ & _ & _ & _ & _ & Hfile & _).
  assert (Hload : load_seen_ids (c_file c1) = c_seen c1)
    by (rewrite Hfile; by apply load_save_small).
  destruct (check_without_cutoff fetch_posts fetch_comment_counts iso_timestamp
              KEYWORDS FILTER_SOLD fuel2 lookback2 now2 (c_file c1) (c_world c1) Hoff)
    as (c2 & Hc2 & Hnew).
  exists c2. split; [exact Hc2|].
  destruct (check_Some _ _ _ _ _ _ _ _ _ _ _ Hc2)
    as (_ & _ & _ & _ & Hloaded & _).
  assert (Hnone : c_all_new_posts c2 = []).
  { rewrite Hnew, Hload. apply elem_of_nil_inv.
    intros p [Hp Hin]%new_posts_of_elem. by apply Hp, Hknown. }
  split; [by rewrite Hloaded|]. split; [exact Hnone|].
  destruct (check_matches _ _ _ _ _ _ _ _ _ _ _ Hc2) as [counts Hm].
  by rewrite Hm, Hnone.
Qed.

Lemma next_cycle_finds_nothing_new_witness :
  exists c1 c2,
    Scenario.run (Scenario.feed 30) 1 0 Scenario.now_utc FileMissing = Some c1 /\
    check (Scenario.serve (Scenario.feed 30)) Scenario.no_counts Scenario.iso_utc
          default_KEYWORDS default_FILTER_SOLD 1 0 (Scenario.now_utc + 300)
          (c_file c1) (c_world c1) = Some c2 /\
    c_all_new_posts c2 = [] /\ c_matches c2 = [].
Proof.
  destruct (is_some_Some
              (Scenario.run (Scenario.feed 30) 1 0 Scenario.now_utc FileMissing))
    as [c1 Hc1]; [vm_compute; reflexivity|].
  assert (Hfetched : c_all_fetched c1 = take 25 (Scenario.feed 30)).
  { assert (H : c_all_fetched <$>
                Scenario.run (Scenario.feed 30) 1 0 Scenario.now_utc FileMissing
                = Some (take 25 (Scenario.feed 30))) by (vm_compute; reflexivity).
    rewrite Hc1 in H. by inversion H. }
  assert (Hsize : size (c_seen c1) <= 2000).
  { assert (H : (fun c => size (c_seen c)) <$>
                Scenario.run (Scenario.feed 30) 1 0 Scenario.now_utc FileMissing
                = Some 25) by (vm_compute; reflexivity).
    rewrite Hc1 in H. cbn in H. inversion H as [H']. rewrite H'. lia. }
  destruct (next_cycle_finds_nothing_new unit (Scenario.serve (Scenario.feed 30))
              Scenario.no_counts Scenario.iso_utc default_KEYWORDS default_FILTER_SOLD
              1 0 0%Q 0%Q Scenario.now_utc (Scenario.now_utc + 300)%Q FileMissing tt c1
              Hc1 Hsize)
    as (c2 & Hc2 & _ & Hn & Hm).
  - reflexivity.
  - intros p Hp.
    apply (check_seen _ _ _ _ _ _ _ _ _ _ _ Hc1). right. left.
    apply list_elem_of_fmap. exists p. split; [done|]. by rewrite Hfetched.
  - exists c1, c2. split; [exact Hc1|]. split; [exact Hc2|]. split; [exact Hn|exact Hm].
Defined.

(** X7.  The matches of a completed cycle are new posts of that cycle, in
    the order in which they were found: each match is a new post that is
    not sold and has at least one keyword, it carries exactly the keywords
    [match_keywords] finds and keeps its id, title and URL; and every new
    post that is not sold and has a keyword is among the matches. *)
Theorem matches_are_the_selected_new_posts :
  forall (World : Type)
         (fetch_posts : option string -> World -> list Post * World)
         (fetch_comment_counts : list string -> World -> gmap string Z * World)
         (iso_timestamp : string -> option Q)
         (KEYWORDS : list string) (FILTER_SOLD : bool)
         (fuel : nat) (lookback_hours now_utc : Q) (file : StateFile) (w : World)
         (c : Cycle World),
    check fetch_posts fetch_comment_counts iso_timestamp KEYWORDS FILTER_SOLD
          fuel lookback_hours now_utc file w = Some c ->
    (p_id <$> c_matches c) `sublist_of` (p_id <$> c_all_new_posts c) /\
    (forall m, m ∈ c_matches c ->
       exists p, p ∈ c_all_new_posts c /\
                 is_sold FILTER_SOLD p = false /\
                 match_keywords KEYWORDS p <> [] /\
                 p_matched_kws m = Some (match_keywords KEYWORDS p) /\
                 p_id m = p_id p /\ p_title m = p_title p /\ p_url m = p_url p) /\
    (forall p, p ∈ c_all_new_posts c ->
       is_sold FILTER_SOLD p = false -> match_keywords KEYWORDS p <> [] ->
       p_id p ∈ (p_id <$> c_matches c)).
Proof.
  intros World fetch_posts fetch_comment_counts iso_timestamp KEYWORDS FILTER_SOLD
         fuel lookback_hours now_utc file w c Hc.
  destruct (check_matches _ _ _ _ _ _ _ _ _ _ _ Hc) as [counts Hm].
  split; [|split].
  - rewrite Hm, enrich_ids. apply select_matches_ids.
  - intros m Hin. rewrite Hm in Hin. unfold enrich in Hin.
    apply list_elem_of_fmap in Hin as (m0 & -> & Hin).
    destruct (select_matches_inv _ _ _ _ Hin) as (p & Hp & Hs & Hk & ->).
    exists p. by repeat split.
  - intros p Hp Hs Hk. rewrite Hm, enrich_ids.
    apply list_elem_of_fmap.
    exists (set_matched_kws (match_keywords KEYWORDS p) p).
    split; [done|]. by apply select_matches_complete.
Qed.

Lemma matches_are_the_selected_new_posts_witness :
  exists c,
    Scenario.run (Scenario.feed 30) 1 0 Scenario.now_utc FileMissing = Some c /\
    (p_id <$> c_matches c) `sublist_of` (p_id <$> c_all_new_posts c).
Proof.
  destruct (is_some_Some
              (Scenario.run (Scenario.feed 30) 1 0 Scenario.now_utc FileMissing))
    as [c Hc]; [vm_compute; reflexivity|].
  exists c. split; [exact Hc|].
  exact (proj1 (matches_are_the_selected_new_posts unit (Scenario.serve (Scenario.feed 30))
                  Scenario.no_counts Scenario.iso_utc default_KEYWORDS default_FILTER_SOLD
                  1 0%Q Scenario.now_utc FileMissing tt c Hc)).
Defined.

(** X8.  The seen-set a completed cycle hands to [save_seen_ids] holds the
    ids that were loaded, the ids of the re-fetched first page and the ids
    of the new posts, and nothing else; so no loaded id is forgotten in
    memory.  The file written holds only ids of that set, none twice. *)
Theorem seen_set_only_grows :
  forall (World : Type)
         (fetch_posts : option string -> World -> list Post * World)
         (fetch_comment_counts : list string -> World -> gmap string Z * World)
         (iso_timestamp : string -> option Q)
         (KEYWORDS : list string) (FILTER_SOLD : bool)
         (fuel : nat) (lookback_hours now_utc : Q) (file : StateFile) (w : World)
         (c : Cycle World),
    check fetch_posts fetch_comment_counts iso_timestamp KEYWORDS FILTER_SOLD
          fuel lookback_hours now_utc file w = Some c ->
    (forall x, x ∈ c_seen c <->
               x ∈ load_seen_ids file \/ x ∈ (p_id <$> c_all_fetched c) \/
               x ∈ (p_id <$> c_all_new_posts c)) /\
    load_seen_ids file ⊆ c_seen c /\
    (forall x, x ∈ persisted (c_file c) -> x ∈ c_seen c) /\
    NoDup (persisted (c_file c)).
Proof.
  intros World fetch_posts fetch_comment_counts iso_timestamp KEYWORDS FILTER_SOLD
         fuel lookback_hours now_utc file w c Hc.
  pose proof (check_seen _ _ _ _ _ _ _ _ _ _ _ Hc) as Hseen.
  destruct (check_Some _ _ _ _ _ _ _ _ _ _ _ Hc)
    as (_ & _ & _ & _ & _ & _ & _ & _ & _ & Hfile & _).
  split; [exact Hseen|]. split; [intros x Hx; apply Hseen; by left|].
  rewrite Hfile. cbn [persisted save_seen_ids].
  split; [apply truncate_ids_elem|apply truncate_ids_NoDup].
Qed.

Lemma seen_set_only_grows_witness :
  exists c,
    Scenario.run (Scenario.feed 30) 1 0 Scenario.now_utc (FileIds ["zz9"]) = Some c /\
    load_seen_ids (FileIds ["zz9"]) ⊆ c_seen c.
Proof.
  destruct (is_some_Some
              (Scenario.run (Scenario.feed 30) 1 0 Scenario.now_utc (FileIds ["zz9"])))
    as [c Hc]; [vm_compute; reflexivity|].
  exists c. split; [exact Hc|].
  exact (proj1 (proj2 (seen_set_only_grows unit (Scenario.serve (Scenario.feed 30))
                  Scenario.no_counts Scenario.iso_utc default_KEYWORDS default_FILTER_SOLD
                  1 0%Q Scenario.now_utc (FileIds ["zz9"]) tt c Hc))).
Defined.

(** X9.  The lookback counts for the first cycle of the watch loop only:
    from the second cycle on the loop does the same whatever the lookback
    is, and with a page budget of at least one it completes every cycle,
    for every feed. *)
Theorem watch_uses_lookback_once :
  forall (World : Type)
         (fetch_posts : option string -> World -> list Post * World)
         (fetch_comment_counts : list string -> World -> gmap string Z * World)
         (iso_timestamp : string -> option Q)
         (KEYWORDS : list string) (FILTER_SOLD : bool)
         (fuel : nat) (lookback lookback' : Q) (nows : list Q)
         (file : StateFile) (w : World),
    watch fetch_posts fetch_comment_counts iso_timestamp KEYWORDS FILTER_SOLD
          fuel lookback false nows file w =
    watch fetch_posts fetch_comment_counts iso_timestamp KEYWORDS FILTER_SOLD
          fuel lookback' false nows file w /\
    exists r,
      watch fetch_posts fetch_comment_counts iso_timestamp KEYWORDS FILTER_SOLD
            (S fuel) lookback false nows file w = Some r.
Proof.
  intros World fetch_posts fetch_comment_counts iso_timestamp KEYWORDS FILTER_SOLD
         fuel lookback lookback' nows.
  induction nows as [|now_utc rest IH]; intros file w.
  - split; [reflexivity|]. by eexists.
  - split.
    + cbn [watch]. destruct (check _ _ _ _ _ _ _ _ _ _) as [c|]; [|done].
      apply IH.
    + cbn [watch].
      destruct (check_without_cutoff fetch_posts fetch_comment_counts iso_timestamp
                  KEYWORDS FILTER_SOLD fuel 0%Q now_utc file w) as (c & Hc & _).
      { rewrite (no_lookback_no_cutoff now_utc 0%Q (Qlt_irrefl 0)). reflexivity. }
      rewrite Hc. apply IH.
Qed.

(** ** More on strings *)

Section MoreStringFacts.
Import PyStr.

Lemma str_app_empty_r s : s +:+ EmptyString = s.
Proof. induction s as [|c s IH]; [reflexivity|]. by rewrite str_app_cons, IH. Qed.

Lemma str_app_assoc s t u : (s +:+ t) +:+ u = s +:+ t +:+ u.
Proof. induction s as [|c s IH]; [reflexivity|]. by rewrite !str_app_cons, IH. Qed.

(** Two ways of cutting one string meet in a common middle part. *)
Lemma str_app_eq_app a b c d :
  a +:+ b = c +:+ d ->
  (exists k, c = a +:+ k /\ b = k +:+ d) \/ (exists k, a = c +:+ k /\ d = k +:+ b).
Proof.
  revert c. induction a as [|x a IH]; intros c H.
  - left. exists c. by rewrite !str_app_empty_l in *.
  - destruct c as [|y c].
    + right. exists (String x a). by rewrite !str_app_empty_l in *.
    + rewrite !str_app_cons in H. inversion H as [[Hx Ht]]. subst y.
      destruct (IH c Ht) as [(k & -> & ->)|(k & -> & ->)].
      * left. by exists k.
      * right. by exists k.
Qed.

Lemma first_char_app s t :
  first_char (s +:+ t) = match first_char s with Some c => Some c | None => first_char t end.
Proof. by destruct s. Qed.

Lemma last_char_app s t :
  last_char (s +:+ t) = match last_char t with Some c => Some c | None => last_char s end.
Proof.
  induction s as [|c s IH].
  - rewrite str_app_empty_l. by destruct (last_char t).
  - rewrite str_app_cons, !last_char_cons, IH.
    destruct (last_char t); [done|]. by destruct (last_char s).
Qed.

Lemma all_chars_app f s t :
  all_chars f (s +:+ t) <-> all_chars f s /\ all_chars f t.
Proof.
  induction s as [|c s IH].
  - rewrite str_app_empty_l. split; [intros H; split; [apply all_chars_nil|done]|by intros [_ H]].
  - rewrite str_app_cons, !all_chars_cons, IH. tauto.
Qed.

Lemma lower_app s t : lower (s +:+ t) = lower s +:+ lower t.
Proof. induction s as [|c s IH]; [done|]. rewrite str_app_cons. simpl. by rewrite IH. Qed.

Lemma lower_char_idemp c : lower_char (lower_char c) = lower_char c.
Proof. destruct c as [[] [] [] [] [] [] [] []]; reflexivity. Qed.

Lemma lower_idemp s : lower (lower s) = lower s.
Proof. induction s as [|c s IH]; [done|]. simpl. by rewrite lower_char_idemp, IH. Qed.

Lemma lower_length s : String.length (lower s) = String.length s.
Proof. induction s as [|c s IH]; [done|]. simpl. by rewrite IH. Qed.

(** Reversal. *)

Lemma rev_app_eq s t : String.rev_app s t = String.rev s +:+ t.
Proof.
  unfold String.rev. revert t. induction s as [|a s IH]; intros t; [done|].
  simpl. rewrite (IH (String a t)), (IH (String a "")), str_app_assoc. done.
Qed.

Lemma rev_cons a s : String.rev (String a s) = String.rev s +:+ String a EmptyString.
Proof. unfold String.rev at 1. simpl. apply rev_app_eq. Qed.

Lemma rev_app_distr s t : String.rev (s +:+ t) = String.rev t +:+ String.rev s.
Proof.
  induction s as [|a s IH].
  - by rewrite str_app_empty_l, str_app_empty_r.
  - by rewrite str_app_cons, !rev_cons, IH, str_app_assoc.
Qed.

Lemma rev_involutive s : String.rev (String.rev s) = s.
Proof.
  induction s as [|a s IH]; [done|].
  by rewrite rev_cons, rev_app_distr, IH.
Qed.

Lemma first_char_rev s : first_char (String.rev s) = last_char s.
Proof.
  induction s as [|a s IH]; [done|].
  rewrite rev_cons, first_char_app, IH, last_char_cons.
  by destruct (last_char s).
Qed.

Lemma last_char_rev s : last_char (String.rev s) = first_char s.
Proof. by rewrite <- first_char_rev, rev_involutive. Qed.

(** Stripping. *)

Lemma all_chars_rev f s : all_chars f s -> all_chars f (String.rev s).
Proof.
  induction s as [|a s IH]; [done|].
  rewrite rev_cons. intros [Ha Hs]%all_chars_cons. apply all_chars_app.
  split; [by apply IH|]. apply all_chars_cons. split; [done|apply all_chars_nil].
Qed.

Lemma lstrip_by_spec f s :
  exists head, s = head +:+ lstrip_by f s /\ all_chars f head /\
               Spec2.holds f (first_char (lstrip_by f s)) = false.
Proof.
  induction s as [|c s (head & Hs & Hh & Hf)].
  - exists EmptyString. split; [done|]. split; [apply all_chars_nil|done].
  - simpl. destruct (f c) eqn:E.
    + exists (String c head). rewrite str_app_cons, <- Hs.
      split; [done|]. split; [by apply all_chars_cons|done].
    + exists EmptyString. split; [done|]. split; [apply all_chars_nil|]. simpl. exact E.
Qed.

Lemma lstrip_by_id f s : Spec2.holds f (first_char s) = false -> lstrip_by f s = s.
Proof. destruct s as [|c s]; [done|]. simpl. by intros ->. Qed.

Lemma rstrip_by_spec f s :
  exists tail, s = rstrip_by f s +:+ tail /\ all_chars f tail /\
               Spec2.holds f (last_char (rstrip_by f s)) = false.
Proof.
  unfold rstrip_by. destruct (lstrip_by_spec f (String.rev s)) as (head & Hs & Hh & Hf).
  exists (String.rev head). split; [|split].
  - rewrite <- rev_app_distr, <- Hs. by rewrite rev_involutive.
  - by apply all_chars_rev.
  - by rewrite last_char_rev.
Qed.

Lemma rstrip_by_id f s : Spec2.holds f (last_char s) = false -> rstrip_by f s = s.
Proof.
  intros H. unfold rstrip_by. rewrite lstrip_by_id; [apply rev_involutive|].
  by rewrite first_char_rev.
Qed.

Lemma strip_trimmed s : Spec2.trimmed (strip s).
Proof.
  unfold strip, Spec2.trimmed.
  destruct (lstrip_by_spec is_space s) as (head & _ & _ & Hfirst).
  destruct (rstrip_by_spec is_space (lstrip_by is_space s)) as (tail & Hs & _ & Hlast).
  split; [|exact Hlast].
  destruct (rstrip_by is_space (lstrip_by is_space s)) as [|c r] eqn:E; [done|].
  rewrite Hs, str_app_cons in Hfirst. exact Hfirst.
Qed.

Lemma strip_id s : Spec2.trimmed s -> strip s = s.
Proof.
  intros [Hf Hl]. unfold strip. rewrite (lstrip_by_id is_space s Hf).
  by apply rstrip_by_id.
Qed.

Lemma strip_within s :
  exists head tail, s = head +:+ strip s +:+ tail /\
                    all_chars is_space head /\ all_chars is_space tail.
Proof.
  unfold strip.
  destruct (lstrip_by_spec is_space s) as (head & Hs & Hh & _).
  destruct (rstrip_by_spec is_space (lstrip_by is_space s)) as (tail & Ht & Htl & _).
  exists head, tail. split; [|done]. by rewrite <- Ht.
Qed.

End MoreStringFacts.

(** ** More on feed parsing *)

Section FeedFacts.
Import PyStr.

Lemma leftmost_id_run lead slash s g : Spec.leftmost lead slash s g -> Spec.id_run g.
Proof. by intros (pre & (post & _ & Hg & _) & _). Qed.

Lemma find_contains marker s :
  find marker s = None <-> contains marker s = false.
Proof.
  induction s as [|c s IH]; simpl.
  - by destruct (strip_prefix marker "").
  - destruct (strip_prefix marker (String c s)); [done|].
    rewrite <- IH. by destruct (find marker s).
Qed.

Lemma find_Some marker s i :
  find marker s = Some i ->
  exists junk rest,
    s = junk +:+ marker +:+ rest /\ String.length junk = i /\
    drop_chars i s = marker +:+ rest /\
    forall junk' rest', s = junk' +:+ marker +:+ rest' -> i <= String.length junk'.
Proof.
  revert i. induction s as [|c s IH]; intros i; simpl.
  - destruct (strip_prefix marker "") as [r|] eqn:E; [|done].
    intros [= <-]. apply strip_prefix_Some in E.
    exists EmptyString, r. split; [done|]. split; [done|]. split; [done|]. intros; lia.
  - destruct (strip_prefix marker (String c s)) as [r|] eqn:E.
    + intros [= <-]. apply strip_prefix_Some in E.
      exists EmptyString, r. split; [done|]. split; [done|]. split; [done|]. intros; lia.
    + destruct (find marker s) as [j|] eqn:Ej; [|done]. intros [= <-].
      destruct (IH j eq_refl) as (junk & rest & -> & Hl & Hd & Hmin).
      exists (String c junk), rest. split; [done|]. split; [by rewrite <- Hl|].
      split; [exact Hd|].
      intros junk' rest' H. destruct junk' as [|c' junk'].
      * rewrite str_app_empty_l in H. rewrite H, strip_prefix_app in E. done.
      * rewrite str_app_cons in H. inversion H as [[Hc Hs]].
        specialize (Hmin junk' rest' Hs). simpl. lia.
Qed.

End FeedFacts.

(** X10.  The id of a parsed post is never empty, as long as the time string
    of the fallback is not; and an id taken from either pattern is made of
    lower-case letters and digits only.  So no post of [parse_rss] has an
    empty id. *)
Theorem post_id_never_empty :
  (forall (time_str : string) (e : Feed.Entry),
     time_str <> EmptyString ->
     p_id (Feed.parse_entry time_str e) <> EmptyString) /\
  (forall (time_str : string) (e : Feed.Entry),
     (exists g, Spec.t3_pattern (PyStr.strip (default EmptyString (Feed.e_id e))) g) \/
     (exists g, Spec.comments_pattern (Feed.entry_url e) g) ->
     PyStr.all_chars PyStr.is_id_char (p_id (Feed.parse_entry time_str e))) /\
  (forall (ET_entries : string -> option (list Feed.Entry)) (time_str : nat -> string)
          (xml_text : string) (p : Post),
     (forall i, time_str i <> EmptyString) ->
     p ∈ Feed.parse_rss ET_entries time_str xml_text -> p_id p <> EmptyString).
Proof.
  assert (Hne : forall time_str e, time_str <> EmptyString ->
                  p_id (Feed.parse_entry time_str e) <> EmptyString).
  { intros time_str e Ht. cbn [Feed.parse_entry p_id].
    unfold Feed.extract_post_id, Feed.id_match, Feed.findtext.
    destruct (Re.search_t3 _) as [g|] eqn:E3.
    { apply search_t3_leftmost, leftmost_id_run in E3. by destruct E3. }
    destruct (Re.search_comments _) as [g|] eqn:Ec.
    { apply search_comments_leftmost, leftmost_id_run in Ec. by destruct Ec. }
    unfold PyStr.or_else. by destruct (PyStr.last_chars 8 _). }
  split; [exact Hne|]. split.
  - intros time_str e H. cbn [Feed.parse_entry p_id].
    unfold Feed.extract_post_id, Feed.id_match, Feed.findtext.
    destruct (Re.search_t3 _) as [g|] eqn:E3.
    { apply search_t3_leftmost, leftmost_id_run in E3. by destruct E3. }
    destruct H as [[g Hg]|[g Hg]].
    { apply search_t3_leftmost in Hg. unfold Feed.findtext in E3. congruence. }
    apply search_comments_leftmost in Hg. rewrite Hg.
    apply search_comments_leftmost, leftmost_id_run in Hg. by destruct Hg.
  - intros ET_entries time_str xml_text p Ht Hp. unfold Feed.parse_rss in Hp.
    destruct (ET_entries _) as [entries|]; [|by apply not_elem_of_nil in Hp].
    apply list_elem_of_lookup_1 in Hp as [i Hi].
    rewrite list_lookup_imap in Hi.
    destruct (entries !! i) as [e|]; [|done]. cbn in Hi. inversion Hi. by apply Hne.
Qed.

Lemma post_id_never_empty_witness :
  p_id (Feed.parse_entry "1704071200.0"
          (Feed.mkEntry None (Some "Pachanoi") None None None [])) <> EmptyString.
Proof. apply (proj1 post_id_never_empty). discriminate. Defined.

(** X11.  [parse_rss] gives no post when the document does not parse and
    otherwise one post per entry; the title, URL, published time and
    content of every post carry no white space at either end, and its
    comment count and matched keywords are unset. *)
Theorem parsed_posts_are_trimmed :
  (forall (ET_entries : string -> option (list Feed.Entry)) (time_str : nat -> string)
          (xml_text : string),
     match ET_entries (Feed.strip_junk ["<?xml"; "<feed"; "<rss"] xml_text) with
     | None => Feed.parse_rss ET_entries time_str xml_text = []
     | Some entries =>
         length (Feed.parse_rss ET_entries time_str xml_text) = length entries
     end) /\
  (forall (ET_entries : string -> option (list Feed.Entry)) (time_str : nat -> string)
          (xml_text : string) (p : Post),
     p ∈ Feed.parse_rss ET_entries time_str xml_text ->
     Spec2.trimmed (p_title p) /\ Spec2.trimmed (p_url p) /\
     Spec2.trimmed (p_published p) /\ Spec2.trimmed (p_content p) /\
     p_comments p = None /\ p_matched_kws p = None).
Proof.
  split.
  - intros ET_entries time_str xml_text. unfold Feed.parse_rss.
    destruct (ET_entries _) as [entries|]; [|done]. apply length_imap.
  - intros ET_entries time_str xml_text p Hp. unfold Feed.parse_rss in Hp.
    destruct (ET_entries _) as [entries|]; [|by apply not_elem_of_nil in Hp].
    apply list_elem_of_lookup_1 in Hp as [i Hi].
    rewrite list_lookup_imap in Hi.
    destruct (entries !! i) as [e|]; [|done]. cbn in Hi. inversion Hi.
    cbn [Feed.parse_entry p_title p_url p_published p_content p_comments p_matched_kws].
    unfold Feed.findtext, Feed.entry_url.
    repeat split; try apply strip_trimmed.
    destruct (Feed.pick_link (Feed.e_links e)); [apply strip_trimmed|done].
    destruct (Feed.pick_link (Feed.e_links e)); [apply strip_trimmed|done].
Qed.

Lemma parsed_posts_are_trimmed_witness :
  Spec2.trimmed
    (p_title (Feed.parse_entry "0.0"
                (Feed.mkEntry None (Some "  Pachanoi  ") None None None []))).
Proof.
  refine (proj1 (proj2 parsed_posts_are_trimmed (fun _ => Some
            [Feed.mkEntry None (Some "  Pachanoi  ") None None None []])
            (fun _ => "0.0") EmptyString _ _)).
  unfold Feed.parse_rss. cbn. constructor.
Defined.

(** X12.  Junk stripping cuts the text at the first occurrence of a marker
    and keeps everything from there on.  The markers are tried in the
    order of the list, so the first marker of the list that occurs
    anywhere decides, also when a later marker occurs earlier in the text;
    a text without any marker is left as it is. *)
Theorem strip_junk_cuts_at_first_listed_marker :
  forall (markers : list string) (xml_text : string),
    ((forall m, m ∈ markers -> ~ Spec.occurs_in m xml_text) ->
     Feed.strip_junk markers xml_text = xml_text) /\
    (forall before m after,
       markers = (before ++ m :: after)%list ->
       (forall m', m' ∈ before -> ~ Spec.occurs_in m' xml_text) ->
       Spec.occurs_in m xml_text ->
       exists junk rest,
         xml_text = junk +:+ m +:+ rest /\
         Feed.strip_junk markers xml_text = m +:+ rest /\
         forall junk' rest', xml_text = junk' +:+ m +:+ rest' ->
                             String.length junk <= String.length junk').
Proof.
  intros markers xml_text. split.
  - induction markers as [|m markers IH]; intros H; [done|]. cbn [Feed.strip_junk].
    destruct (PyStr.find m xml_text) as [i|] eqn:E.
    + exfalso. apply (H m); [constructor|].
      destruct (find_Some _ _ _ E) as (junk & rest & Hs & _). by exists junk, rest.
    + apply IH. intros m' Hm'. apply H. by constructor.
  - intros before. revert markers.
    induction before as [|b before IH]; intros markers m after -> Hbefore Hocc.
    + cbn [app Feed.strip_junk].
      destruct (PyStr.find m xml_text) as [i|] eqn:E.
      * destruct (find_Some _ _ _ E) as (junk & rest & Hs & Hl & Hd & Hmin).
        exists junk, rest. split; [done|]. split; [done|]. by rewrite Hl.
      * apply find_contains in E. apply contains_occurs in Hocc. congruence.
    + cbn [app Feed.strip_junk].
      destruct (PyStr.find b xml_text) as [i|] eqn:E.
      * exfalso. apply (Hbefore b); [constructor|].
        destruct (find_Some _ _ _ E) as (junk & rest & Hs & _). by exists junk, rest.
      * apply (IH _ m after eq_refl); [|done].
        intros m' Hm'. apply Hbefore. by constructor.
Qed.

Lemma strip_junk_cuts_at_first_listed_marker_witness :
  exists junk rest,
    "<feed a><?xml b>" = junk +:+ "<?xml" +:+ rest /\
    Feed.strip_junk ["<?xml"; "<feed"; "<rss"] "<feed a><?xml b>" = "<?xml" +:+ rest.
Proof.
  destruct (proj2 (strip_junk_cuts_at_first_listed_marker
                     ["<?xml"; "<feed"; "<rss"] "<feed a><?xml b>")
              [] "<?xml" ["<feed"; "<rss"] eq_refl)
    as (junk & rest & Hs & Hc & _).
  - intros m' Hm'. by apply not_elem_of_nil in Hm'.
  - by exists "<feed a>", " b>".
  - by exists junk, rest.
Defined.

(** X13.  The author of a parsed post: ["unknown"] when the entry has no
    author name element; otherwise the stripped text without any leading
    [u] and [/], so the name never starts with either of them: [u/]
    followed by a name gives the name less its own leading [u]s and
    slashes, and a name element without text gives ["nknown"]. *)
Theorem author_loses_leading_u_and_slash :
  forall e : Feed.Entry,
    (Feed.e_author e = None -> Feed.entry_author e = "unknown") /\
    (forall t, Feed.e_author e = Some t ->
       Spec2.holds Feed.is_u_or_slash (PyStr.first_char (Feed.entry_author e)) = false) /\
    (forall name, Feed.e_author e = Some (Some ("u/" +:+ name)) ->
       Spec2.holds PyStr.is_space (PyStr.last_char name) = false ->
       Feed.entry_author e = PyStr.lstrip_by Feed.is_u_or_slash name /\
       (Spec2.holds Feed.is_u_or_slash (PyStr.first_char name) = false ->
        Feed.entry_author e = name)) /\
    (Feed.e_author e = Some None \/ Feed.e_author e = Some (Some EmptyString) ->
     Feed.entry_author e = "nknown").
Proof.
  intros e. unfold Feed.entry_author. split; [by intros ->|]. split.
  - intros t ->.
    by destruct (lstrip_by_spec Feed.is_u_or_slash
                   (PyStr.strip (PyStr.or_else (default EmptyString t) "unknown")))
      as (_ & _ & _ & H).
  - split.
    + intros name -> Hlast.
      assert (Hstrip : PyStr.strip ("u/" +:+ name) = "u/" +:+ name).
      { apply strip_id. split; [done|].
        rewrite last_char_app. destruct (PyStr.last_char name); [done|done]. }
      assert (Hres : PyStr.lstrip_by Feed.is_u_or_slash
                       (PyStr.strip (PyStr.or_else (default EmptyString (Some ("u/" +:+ name)))
                                       "unknown"))
                     = PyStr.lstrip_by Feed.is_u_or_slash name).
      { change (PyStr.or_else (default EmptyString (Some ("u/" +:+ name))) "unknown")
          with ("u/" +:+ name).
        rewrite Hstrip. reflexivity. }
      split; [exact Hres|]. intros Hfirst. rewrite Hres. by apply lstrip_by_id.
    + by intros [-> | ->].
Qed.

Lemma author_loses_leading_u_and_slash_witness :
  Feed.entry_author (Feed.mkEntry None None (Some (Some ("u/" +:+ "uma"))) None None [])
  = "ma".
Proof.
  refine (proj1 (proj1 (proj2 (proj2 (author_loses_leading_u_and_slash _))) "uma" _ _)).
  - reflexivity.
  - reflexivity.
Defined.

(** ** More on matching *)

Section MatchFacts.
Import PyStr.

Lemma post_text_fields post :
  post_text post = lower (p_title post) +:+ " " +:+ lower (p_content post).
Proof. unfold post_text. by rewrite !lower_app. Qed.

(** No part of "sold" starts with a space. *)
Lemma sold_has_no_space k rest tail : "sold" = k +:+ String " " rest +:+ tail -> False.
Proof.
  destruct k as [|c1 [|c2 [|c3 [|c4 [|c5 k]]]]]; rewrite ?str_app_cons, ?str_app_empty_l;
    intros H; inversion H.
Qed.

Lemma whole_word_sold_split a b :
  Spec.whole_word_in "sold" (a +:+ " " +:+ b) <->
  Spec.whole_word_in "sold" a \/ Spec.whole_word_in "sold" b.
Proof.
  split.
  - intros (pre & post & H & Hp & Hn).
    destruct (str_app_eq_app _ _ _ _ H) as [(k & -> & Hk)|(k & -> & Hk)].
    + (* the match starts after the title *)
      right. destruct k as [|c k].
      { rewrite str_app_empty_l in Hk. inversion Hk. }
      rewrite str_app_cons in Hk. inversion Hk as [[Hc Hb]]. subst c.
      exists k, post. split; [done|]. split; [|done].
      rewrite last_char_app in Hp.
      change (String " " k) with (" " +:+ k) in Hp. rewrite last_char_app in Hp.
      by destruct (last_char k).
    + (* the match starts in the title *)
      symmetry in Hk.
      destruct (str_app_eq_app _ _ _ _ Hk) as [(k2 & Hs & Hpost)|(k2 & -> & Hpost)].
      * destruct k2 as [|c k2].
        { rewrite str_app_empty_r in Hs. subst k. left. exists pre, EmptyString.
          split; [done|]. split; [done|done]. }
        rewrite str_app_cons in Hpost. inversion Hpost as [[Hc Hb]]. subst c.
        exfalso. apply (sold_has_no_space k k2 EmptyString).
        by rewrite str_app_empty_r.
      * left. exists pre, k2. split; [done|]. split; [done|].
        rewrite Hpost, first_char_app in Hn.
        destruct (first_char k2); [done|done].
  - intros [(pre & post & -> & Hp & Hn)|(pre & post & -> & Hp & Hn)].
    + exists pre, (post +:+ " " +:+ b). split; [by rewrite !str_app_assoc|].
      split; [done|]. rewrite first_char_app. by destruct (first_char post).
    + exists (a +:+ " " +:+ pre), post. split; [by rewrite !str_app_assoc|].
      split; [|done]. rewrite !last_char_app. by destruct (last_char pre).
Qed.

Lemma occurs_split k a b :
  Spec2.no_blank k ->
  Spec.occurs_in k (a +:+ " " +:+ b) <-> Spec.occurs_in k a \/ Spec.occurs_in k b.
Proof.
  intros Hk. split.
  - intros (pre & post & H).
    destruct (str_app_eq_app _ _ _ _ H) as [(x & -> & Hx)|(x & -> & Hx)].
    + destruct x as [|c x].
      { rewrite str_app_empty_l in Hx. destruct k as [|c k].
        - left. exists EmptyString, a. reflexivity.
        - rewrite str_app_cons in Hx. inversion Hx as [[Hc Hb]]. subst c.
          apply all_chars_cons in Hk as [Hk _]. done. }
      rewrite str_app_cons in Hx. inversion Hx as [[Hc Hb]]. subst c.
      right. by exists x, post.
    + symmetry in Hx.
      destruct (str_app_eq_app _ _ _ _ Hx) as [(y & Hy & Hpost)|(y & -> & Hpost)].
      * destruct y as [|c y].
        { rewrite str_app_empty_r in Hy. subst x. left. exists pre, EmptyString.
          by rewrite str_app_empty_r. }
        rewrite str_app_cons in Hpost. inversion Hpost as [[Hc Hb]]. subst c.
        rewrite Hy in Hk. apply all_chars_app in Hk as [_ Hk].
        apply all_chars_cons in Hk as [Hk _]. done.
      * left. by exists pre, y.
  - intros [(pre & post & ->)|(pre & post & ->)].
    + exists pre, (post +:+ " " +:+ b). by rewrite !str_app_assoc.
    + exists (a +:+ " " +:+ pre), post. by rewrite !str_app_assoc.
Qed.

Lemma occurs_either k a b :
  Spec.occurs_in k a \/ Spec.occurs_in k b -> Spec.occurs_in k (a +:+ " " +:+ b).
Proof.
  intros [(pre & post & ->)|(pre & post & ->)].
  - exists pre, (post +:+ " " +:+ b). by rewrite !str_app_assoc.
  - exists (a +:+ " " +:+ pre), post. by rewrite !str_app_assoc.
Qed.

End MatchFacts.

(** X14.  With the exclusion policy on, a post is excluded exactly when
    "sold" is a whole word of its lower-cased title or a whole word of its
    lower-cased content: the two fields are searched as if apart, so a
    title that ends in "sold" counts whatever the content starts with, and
    no match runs from the title into the content. *)
Theorem sold_in_title_or_content :
  (forall post : Post,
     is_sold true post = true <->
     Spec.whole_word_in "sold" (PyStr.lower (p_title post)) \/
     Spec.whole_word_in "sold" (PyStr.lower (p_content post))) /\
  (forall post : Post, is_sold false post = false).
Proof.
  split; [|done].
  intros post. unfold is_sold. cbn [negb].
  rewrite search_sold_iff, post_text_fields. apply whole_word_sold_split.
Qed.

(** X15.  The keywords [match_keywords] returns are taken from the
    configured list, in its order and spelling.  A configured keyword that
    occurs, case aside, in the title or in the content is returned; a
    keyword without a space is returned only then; a keyword with a space
    can also match across the end of the title, as "san pedro" does for the
    title "San" and the content "Pedro". *)
Theorem keywords_in_title_or_content :
  (forall (KEYWORDS : list string) (post : Post),
     match_keywords KEYWORDS post `sublist_of` KEYWORDS /\
     (forall kw, kw ∈ KEYWORDS ->
        Spec.occurs_in (PyStr.lower kw) (PyStr.lower (p_title post)) \/
        Spec.occurs_in (PyStr.lower kw) (PyStr.lower (p_content post)) ->
        kw ∈ match_keywords KEYWORDS post) /\
     (forall kw, kw ∈ match_keywords KEYWORDS post ->
        Spec2.no_blank (PyStr.lower kw) ->
        Spec.occurs_in (PyStr.lower kw) (PyStr.lower (p_title post)) \/
        Spec.occurs_in (PyStr.lower kw) (PyStr.lower (p_content post)))) /\
  match_keywords default_KEYWORDS
    {| p_id := "abc123"; p_title := "San"; p_url := EmptyString;
       p_author := "grower"; p_published := EmptyString; p_content := "Pedro";
       p_comments := None; p_matched_kws := None |} = ["san pedro"].
Proof.
  split; [|reflexivity].
  intros KEYWORDS post.
  assert (Hin : forall kw, kw ∈ match_keywords KEYWORDS post <->
                  kw ∈ KEYWORDS /\
                  Spec.occurs_in (PyStr.lower kw)
                    (PyStr.lower (p_title post) +:+ " " +:+ PyStr.lower (p_content post))).
  { intros kw. unfold match_keywords. rewrite list_elem_of_filter, contains_occurs.
    rewrite post_text_fields. tauto. }
  split; [apply sublist_filter|]. split.
  - intros kw Hkw Hocc. apply Hin. split; [done|]. by apply occurs_either.
  - intros kw [_ Hocc]%Hin Hk. by apply (occurs_split _ _ _ Hk).
Qed.

Lemma keywords_in_title_or_content_witness :
  "crest" ∈ match_keywords default_KEYWORDS
    (Scenario.post_with "abc123" "TBM Crest" "2024-01-01T00:00:00+00:00").
Proof.
  apply (proj1 (proj2 (proj1 keywords_in_title_or_content default_KEYWORDS
                         (Scenario.post_with "abc123" "TBM Crest"
                            "2024-01-01T00:00:00+00:00")))).
  - apply list_elem_of_In. cbn. tauto.
  - left. apply contains_occurs. reflexivity.
Defined.

(** X16.  Matching looks at letters without their case: two posts whose
    titles and contents are the same once lower-cased are excluded or not
    alike and match the same keywords, and two spellings of a keyword that
    are the same once lower-cased match the same posts. *)
Theorem matching_ignores_case :
  (forall (KEYWORDS : list string) (FILTER_SOLD : bool) (p q : Post),
     PyStr.lower (p_title p) = PyStr.lower (p_title q) ->
     PyStr.lower (p_content p) = PyStr.lower (p_content q) ->
     is_sold FILTER_SOLD p = is_sold FILTER_SOLD q /\
     match_keywords KEYWORDS p = match_keywords KEYWORDS q) /\
  (forall (kw kw' : string) (post : Post),
     PyStr.lower kw = PyStr.lower kw' ->
     (match_keywords [kw] post = [] <-> match_keywords [kw'] post = [])) /\
  (forall (KEYWORDS : list string) (FILTER_SOLD : bool) (p : Post),
     let q := {| p_id := p_id p; p_title := PyStr.lower (p_title p); p_url := p_url p;
                 p_author := p_author p; p_published := p_published p;
                 p_content := PyStr.lower (p_content p);
                 p_comments := p_comments p; p_matched_kws := p_matched_kws p |} in
     is_sold FILTER_SOLD q = is_sold FILTER_SOLD p /\
     match_keywords KEYWORDS q = match_keywords KEYWORDS p).
Proof.
  assert (Hsame : forall (KEYWORDS : list string) (FILTER_SOLD : bool) (p q : Post),
            PyStr.lower (p_title p) = PyStr.lower (p_title q) ->
            PyStr.lower (p_content p) = PyStr.lower (p_content q) ->
            is_sold FILTER_SOLD p = is_sold FILTER_SOLD q /\
            match_keywords KEYWORDS p = match_keywords KEYWORDS q).
  { intros KEYWORDS FILTER_SOLD p q Ht Hc.
    assert (post_text p = post_text q) as Htext
      by (by rewrite !post_text_fields, Ht, Hc).
    unfold is_sold, match_keywords. by rewrite Htext. }
  split; [exact Hsame|]. split.
  - intros kw kw' post Hkw. unfold match_keywords.
    cbn [filter list_filter]. rewrite Hkw. by destruct (decide _).
  - intros KEYWORDS FILTER_SOLD p q. apply Hsame; cbn; apply lower_idemp.
Qed.

Lemma matching_ignores_case_witness :
  is_sold true (Scenario.post_with "abc123" "SOLD out" EmptyString)
  = is_sold true (Scenario.post_with "abc123" "sold OUT" EmptyString).
Proof.
  apply (proj1 (proj1 matching_ignores_case default_KEYWORDS true
                  (Scenario.post_with "abc123" "SOLD out" EmptyString)
                  (Scenario.post_with "abc123" "sold OUT" EmptyString) eq_refl eq_refl)).
Defined.

(** ** The text of the state file *)

Section JsonFacts.
Import PyStr Persist.

Lemma all_chars_forallb f s :
  forallb f (list_ascii_of_string s) = true -> all_chars f s.
Proof. intros H c Hc. exact (proj1 (forallb_forall f _) H c Hc). Qed.

Lemma json_escape_char_printable c :
  all_chars Spec2.printable (json_escape_char c).
Proof.
  apply all_chars_forallb.
  destruct c as [[] [] [] [] [] [] [] []]; reflexivity.
Qed.

Lemma json_escape_char_id c :
  is_id_char c = true -> json_escape_char c = String c EmptyString.
Proof. destruct c as [[] [] [] [] [] [] [] []]; intros H; first [discriminate H|reflexivity]. Qed.

Lemma json_escape_printable s : all_chars Spec2.printable (json_escape s).
Proof.
  induction s as [|c s IH]; [apply all_chars_nil|]. simpl.
  apply all_chars_app. split; [apply json_escape_char_printable|exact IH].
Qed.

Lemma json_string_printable s : all_chars Spec2.printable (json_string s).
Proof.
  unfold json_string. apply all_chars_cons. split; [reflexivity|].
  apply all_chars_app. split; [apply json_escape_printable|].
  apply all_chars_cons. split; [reflexivity|apply all_chars_nil].
Qed.

Lemma join_printable sep l :
  all_chars Spec2.printable sep ->
  (forall s, s ∈ l -> all_chars Spec2.printable s) ->
  all_chars Spec2.printable (join sep l).
Proof.
  intros Hsep. induction l as [|x l IH]; intros Hl; [apply all_chars_nil|].
  destruct l as [|y l]; [apply Hl; constructor|].
  change (join sep (x :: y :: l)) with (x +:+ sep +:+ join sep (y :: l)).
  apply all_chars_app. split; [apply Hl; constructor|].
  apply all_chars_app. split; [exact Hsep|].
  apply IH. intros s Hs. apply Hl. by constructor.
Qed.

End JsonFacts.

Lemma json_dumps_printable ids :
  PyStr.all_chars Spec2.printable (Persist.json_dumps ids).
Proof.
  unfold Persist.json_dumps.
  apply all_chars_app. split; [by apply all_chars_forallb|].
  apply all_chars_app. split; [|by apply all_chars_forallb].
  apply join_printable.
  - by apply all_chars_forallb.
  - intros s (id & -> & _)%list_elem_of_fmap. apply json_string_printable.
Qed.

(** X17.  Whatever the ids of the seen-set are and whatever the state file
    held before, after a save the file holds printable ASCII only, from
    the space to the tilde; and an id made of lower-case letters and digits
    is written as it is between two double quotes. *)
Theorem state_file_text_is_ascii :
  (forall (seen : gset string) (old : Persist.Disk),
     exists text,
       Persist.run_ops (Persist.save_ops seen) old = Persist.Content text /\
       PyStr.all_chars Spec2.printable text) /\
  (forall id : string,
     PyStr.all_chars PyStr.is_id_char id ->
     Persist.json_string id =
       String Persist.quote (id +:+ String Persist.quote EmptyString)).
Proof.
  split.
  - intros seen old. exists (Persist.json_dumps (truncate_ids seen)).
    split; [apply observable_write_text|apply json_dumps_printable].
  - intros id Hid. unfold Persist.json_string. do 2 f_equal.
    induction id as [|c id IH]; [done|].
    apply all_chars_cons in Hid as [Hc Hid]. simpl.
    by rewrite (json_escape_char_id c Hc), (IH Hid).
Qed.

Lemma state_file_text_is_ascii_witness :
  Persist.json_string "abc123" =
    String Persist.quote ("abc123" +:+ String Persist.quote EmptyString).
Proof.
  apply (proj2 state_file_text_is_ascii).
  apply all_chars_forallb. reflexivity.
Defined.

(** ** Comment counts *)

Section CountsFacts.
Import Counts.

Lemma collect_well_formed children counts :
  Spec2.well_formed children ->
  exists m, collect children counts = Some m /\
            forall id, m !! id = match Spec2.last_count id children with
                                 | Some n => Some n
                                 | None => counts !! id
                                 end.
Proof.
  revert counts. induction children as [|child rest IH]; intros counts Hwf.
  - by exists counts.
  - assert (Hrest : Spec2.well_formed rest).
    { intros ch d Hin. apply Hwf. by constructor. }
    cbn [collect Spec2.last_count].
    destruct (ch_data child) as [d|] eqn:Ed.
    + destruct (Hwf child d) as [[k Hk] [n Hn]]; [constructor|done|].
      rewrite Hk, Hn.
      destruct (IH (<[k:=n]> counts) Hrest) as (m & Hm & Hlook).
      exists m. split; [done|]. intros id. rewrite Hlook.
      destruct (Spec2.last_count id rest); [done|].
      destruct (decide (Some k = Some id)) as [[= ->]|Hne].
      * by rewrite lookup_insert_eq.
      * rewrite lookup_insert_ne; [done|congruence].
    + destruct (IH counts Hrest) as (m & Hm & Hlook).
      exists m. split; [done|]. intros id. rewrite Hlook.
      by destruct (Spec2.last_count id rest).
Qed.

Lemma collect_malformed children counts child d :
  child ∈ children -> ch_data child = Some d ->
  cd_id d = None \/ cd_num_comments d = None ->
  collect children counts = None.
Proof.
  revert counts. induction children as [|ch rest IH]; intros counts Hin Hd Hbad.
  - by apply not_elem_of_nil in Hin.
  - cbn [collect]. apply elem_of_cons in Hin as [<-|Hin].
    + rewrite Hd. destruct Hbad as [-> | ->]; [done|]. by destruct (cd_id d).
    + destruct (ch_data ch) as [d'|]; [|by apply IH].
      destruct (cd_id d') as [k|]; [|done].
      destruct (cd_num_comments d') as [n|]; [|done]. by apply IH.
Qed.

End CountsFacts.

(** X18.  [fetch_comment_counts] makes no request for an empty list of
    ids.  Otherwise it asks for all ids in one URL, and its result holds,
    for every id, the count of the last child of the response that carries
    that id, and nothing for an id the response does not carry.  A single
    child whose data lacks the id or the count makes the whole result
    empty, and so does a failed request. *)
Theorem comment_counts_follow_the_response :
  forall (World : Type)
         (get_children : string -> World -> option (list Counts.Child) * World)
         (post_ids : list string) (w : World),
    (post_ids = [] -> Counts.fetch_comment_counts get_children post_ids w = (∅, w)) /\
    (post_ids <> [] ->
     forall children,
       (get_children (Counts.by_id_url post_ids) w).1 = Some children ->
       (Spec2.well_formed children ->
        forall id, (Counts.fetch_comment_counts get_children post_ids w).1 !! id
                   = Spec2.last_count id children) /\
       (forall child d,
          child ∈ children -> Counts.ch_data child = Some d ->
          Counts.cd_id d = None \/ Counts.cd_num_comments d = None ->
          (Counts.fetch_comment_counts get_children post_ids w).1 = ∅)) /\
    (post_ids <> [] ->
     (get_children (Counts.by_id_url post_ids) w).1 = None ->
     (Counts.fetch_comment_counts get_children post_ids w).1 = ∅).
Proof.
  intros World get_children post_ids w. split; [by intros ->|].
  assert (Hunfold : post_ids <> [] ->
            (Counts.fetch_comment_counts get_children post_ids w).1 =
            match (get_children (Counts.by_id_url post_ids) w).1 with
            | Some children => default ∅ (Counts.collect children ∅)
            | None => ∅
            end).
  { intros Hne. unfold Counts.fetch_comment_counts.
    destruct post_ids as [|pid rest]; [done|].
    by destruct (get_children _ w) as [[children|] w']. }
  split.
  - intros Hne children Hget. rewrite (Hunfold Hne), Hget. split.
    + intros Hwf id. destruct (collect_well_formed children ∅ Hwf) as (m & -> & Hlook).
      cbn [default]. rewrite Hlook, lookup_empty.
      by destruct (Spec2.last_count id children).
    + intros child d Hin Hd Hbad. by rewrite (collect_malformed _ _ _ _ Hin Hd Hbad).
  - intros Hne Hget. by rewrite (Hunfold Hne), Hget.
Qed.

Lemma comment_counts_follow_the_response_witness :
  (Counts.fetch_comment_counts
     (fun (url : string) (w : unit) =>
        (Some [Counts.mkChild (Some (Counts.mkChildData (Some "abc123") (Some 4%Z)));
               Counts.mkChild None;
               Counts.mkChild (Some (Counts.mkChildData (Some "abc123") (Some 7%Z)))], w))
     ["abc123"; "def456"] tt).1 !! "abc123" = Some 7%Z.
Proof.
  refine (proj1 (proj1 (proj2 (comment_counts_follow_the_response unit
     (fun (url : string) (w : unit) =>
        (Some [Counts.mkChild (Some (Counts.mkChildData (Some "abc123") (Some 4%Z)));
               Counts.mkChild None;
               Counts.mkChild (Some (Counts.mkChildData (Some "abc123") (Some 7%Z)))], w))
     ["abc123"; "def456"] tt)) _ _ eq_refl) _ "abc123").
  - discriminate.
  - intros child d Hin Hd.
    apply list_elem_of_In in Hin. cbn in Hin.
    destruct Hin as [<-|[<-|[<-|[]]]]; cbn in Hd; inversion Hd; cbn; by split.
Defined.

Section CountFacts.
Context {World : Type}.
Variable fetch_posts : option string -> World -> list Post * World.
Variable fetch_comment_counts : list string -> World -> gmap string Z * World.
Variable iso_timestamp : string -> option Q.
Variable KEYWORDS : list string.
Variable FILTER_SOLD : bool.

(** The counts of a completed cycle are those of one call of
    [fetch_comment_counts] with the ids of the selected posts. *)
Lemma check_matches_counts fuel lookback_hours now_utc file w c :
  check fetch_posts fetch_comment_counts iso_timestamp KEYWORDS FILTER_SOLD
        fuel lookback_hours now_utc file w = Some c ->
  exists w2,
    c_matches c =
      enrich (fetch_comment_counts
                (map p_id (select_matches KEYWORDS FILTER_SOLD (c_all_new_posts c))) w2).1
             (select_matches KEYWORDS FILTER_SOLD (c_all_new_posts c)).
Proof.
  unfold check. intros H.
  destruct (paginate _ _ _ _ _ _ _ _ _) as [[[all reqs] w1]|]; [|done].
  destruct (fetch_posts None w1) as [front w2].
  exists w2.
  destruct (select_matches KEYWORDS FILTER_SOLD all) as [|m0 ms] eqn:Em.
  - inversion H; subst c. cbn [c_matches c_all_new_posts]. by rewrite Em.
  - destruct (fetch_comment_counts _ w2) as [counts w3] eqn:Ef.
    inversion H; subst c. cbn [c_matches c_all_new_posts]. by rewrite Em, Ef.
Qed.

End CountFacts.

(** X19.  In a cycle that takes its counts from [fetch_comment_counts], a
    match gets the count that the last child with its id carries in the
    response, and no count when the response has no child with its id; when
    the request fails every match is still handed on, without a count. *)
Theorem matches_carry_the_response_counts :
  forall (World : Type)
         (fetch_posts : option string -> World -> list Post * World)
         (get_children : string -> World -> option (list Counts.Child) * World)
         (iso_timestamp : string -> option Q)
         (KEYWORDS : list string) (FILTER_SOLD : bool)
         (fuel : nat) (lookback_hours now_utc : Q) (file : StateFile) (w : World)
         (c : Cycle World),
    check fetch_posts (Counts.fetch_comment_counts get_children) iso_timestamp
          KEYWORDS FILTER_SOLD fuel lookback_hours now_utc file w = Some c ->
    (forall children,
       (forall url w', (get_children url w').1 = Some children) ->
       Spec2.well_formed children ->
       forall m, m ∈ c_matches c ->
                 p_comments m = Spec2.last_count (p_id m) children) /\
    ((forall url w', (get_children url w').1 = None) ->
     forall m, m ∈ c_matches c -> p_comments m = None).
Proof.
  intros World fetch_posts get_children iso_timestamp KEYWORDS FILTER_SOLD
         fuel lookback_hours now_utc file w c Hc.
  destruct (check_matches_counts _ _ _ _ _ _ _ _ _ _ _ Hc) as [w2 Hm].
  set (sel := select_matches KEYWORDS FILTER_SOLD (c_all_new_posts c)) in Hm.
  assert (Hunfold : forall m, m ∈ c_matches c ->
            sel <> [] /\
            p_comments m =
              (Counts.fetch_comment_counts get_children (map p_id sel) w2).1 !! p_id m).
  { intros m Hin. rewrite Hm in Hin. unfold enrich in Hin.
    apply list_elem_of_fmap in Hin as (m0 & -> & Hin).
    split; [|done]. intros E. rewrite E in Hin. by apply not_elem_of_nil in Hin. }
  assert (Hfetch : sel <> [] ->
            (Counts.fetch_comment_counts get_children (map p_id sel) w2).1 =
            match (get_children (Counts.by_id_url (map p_id sel)) w2).1 with
            | Some children => default ∅ (Counts.collect children ∅)
            | None => ∅
            end).
  { intros Hne. unfold Counts.fetch_comment_counts.
    destruct sel as [|m0 ms]; [done|]. cbn [map].
    by destruct (get_children _ w2) as [[children|] w']. }
  split.
  - intros children Hget Hwf m Hin.
    destruct (Hunfold m Hin) as [Hne ->]. rewrite (Hfetch Hne), Hget.
    destruct (collect_well_formed children ∅ Hwf) as (cs & -> & Hlook).
    cbn [default]. rewrite Hlook, lookup_empty.
    by destruct (Spec2.last_count (p_id m) children).
  - intros Hget m Hin.
    destruct (Hunfold m Hin) as [Hne ->]. by rewrite (Hfetch Hne), Hget.
Qed.

Lemma matches_carry_the_response_counts_witness :
  exists c,
    check (Scenario.serve (Scenario.feed 3))
          (Counts.fetch_comment_counts
             (fun (url : string) (w : unit) =>
                (@None (list Counts.Child), w)))
          Scenario.iso_utc default_KEYWORDS default_FILTER_SOLD
          1 0 Scenario.now_utc FileMissing tt = Some c /\
    forall m, m ∈ c_matches c -> p_comments m = None.
Proof.
  destruct (is_some_Some
              (check (Scenario.serve (Scenario.feed 3))
                 (Counts.fetch_comment_counts
                    (fun (url : string) (w : unit) =>
                       (@None (list Counts.Child), w)))
                 Scenario.iso_utc default_KEYWORDS default_FILTER_SOLD
                 1 0 Scenario.now_utc FileMissing tt))
    as [c Hc]; [vm_compute; reflexivity|].
  exists c. split; [exact Hc|].
  exact (proj2 (matches_carry_the_response_counts unit _ _ _ _ _ _ _ _ _ _ c Hc)
               (fun url w' => eq_refl)).
Defined.

